(** * audio2mei-alignement: the score chromagram, the warp-path lookup,
      the timestamp dictionary and the measure aggregation

    A shallow embedding of [src/mei.py] ([_meico_to_chroma],
    [get_measure_timestamps], [filter_measures_by_tstamp]) and of steps 3
    and 4 of [src/main.py].

    Conventions of the embedding.
    - Python [float] values and the cells of the numpy matrix (a [float16]
      array in the code) are exact rationals [Q]: NaN, the infinities and
      rounding are not represented. The one infinity the code manipulates,
      the initial [np.inf] of [shortest_duration], is the [None] of an
      [option Q].
    - A Python [dict] is an insertion-ordered association list
      ([Py.dict]): assigning to a key that is present replaces the value in
      place, a fresh key goes to the end. The keys of a dictionary are
      pairwise distinct; the operations keep them so.
    - A raised exception is the [Err] of the [Py.result] monad.
    - The two library calls, [librosa.util.normalize] and the XPath
      evaluation of [lxml], are written out from the documented behaviour of
      these libraries; [process_audio] and the warping [librosa.sequence.dtw]
      are not modelled, their results are inputs. *)

From Stdlib Require Import ZArith QArith Qround Qabs Lia Lqa Ascii Sorted.
From stdpp Require Import base decidable option list strings.

Local Open Scope Z_scope.

(** ** Python values *)

Module Py.

(** The exceptions the modelled code can raise. *)
Inductive exn : Type :=
| TypeError          (* float(None) *)
| ValueError         (* float("x"), int("x"), np.zeros with a negative size *)
| ZeroDivisionError  (* x / 0.0 *)
| KeyError.          (* d[k] with k not in d *)

Inductive result (A : Type) : Type :=
| Ok (a : A)
| Err (e : exn).
Arguments Ok {A} a.
Arguments Err {A} e.

Definition bind {A B} (r : result A) (k : A -> result B) : result B :=
  match r with
  | Ok a => k a
  | Err e => Err e
  end.

(** A [for] loop whose body may raise: the state is threaded from left to
    right and the first exception ends the loop. *)
Fixpoint for_each {S X} (body : S -> X -> result S) (xs : list X) (s : S)
  : result S :=
  match xs with
  | [] => Ok s
  | x :: xs' => bind (body s x) (for_each body xs')
  end.

(** [[f(x) for x in xs]] where [f] may raise. *)
Fixpoint map_each {X Y} (f : X -> result Y) (xs : list X) : result (list Y) :=
  match xs with
  | [] => Ok []
  | x :: xs' =>
      bind (f x) (fun y => bind (map_each f xs') (fun ys => Ok (y :: ys)))
  end.

(** *** Numbers *)

Definition Qlt_bool (x y : Q) : bool := negb (Qle_bool y x).

(** [int(x)] of a float: truncation towards zero. *)
Definition int (x : Q) : Z :=
  if Qle_bool 0 x then Qfloor x else Qceiling x.

(** [round(x)] of a float: the nearest integer, a tie goes to the even
    one. *)
Definition round (x : Q) : Z :=
  let f := Qfloor x in
  let r := (x - inject_Z f)%Q in
  if Qlt_bool r (1 # 2) then f
  else if Qlt_bool (1 # 2) r then f + 1
  else if Z.even f then f else f + 1.

(** [min(a, b)] and [max(a, b)] return the first of the smallest (largest)
    arguments. *)
Definition min (a b : Q) : Q := if Qlt_bool b a then b else a.
Definition max (a b : Q) : Q := if Qlt_bool a b then b else a.

(** [x / y] on floats. *)
Definition div (x y : Q) : result Q :=
  if Qeq_bool y 0 then Err ZeroDivisionError else Ok (x / y)%Q.

(** *** Slices

    [a[start:stop]] on a sequence of [len] items selects the positions
    [lo <= j < hi] where a negative bound counts from the end and both
    bounds are clipped to [0 .. len]. *)
Definition clip (len i : Z) : Z :=
  if i <? 0 then Z.max (i + len) 0 else Z.min i len.

Definition in_slice (len start stop : Z) (j : nat) : bool :=
  (clip len start <=? Z.of_nat j) && (Z.of_nat j <? clip len stop).

(** *** [int] of a string

    Surrounding white space, an optional sign, then decimal digits that
    single underscores may separate. *)
Definition is_space (c : ascii) : bool :=
  let n := nat_of_ascii c in
  ((Nat.leb 9 n && Nat.leb n 13) || (Nat.leb 28 n && Nat.leb n 32))%bool.

Definition digit_of (c : ascii) : option Z :=
  let n := nat_of_ascii c in
  if (Nat.leb 48 n && Nat.leb n 57)%bool then Some (Z.of_nat n - 48) else None.

Fixpoint strip_left (s : list ascii) : list ascii :=
  match s with
  | c :: s' => if is_space c then strip_left s' else s
  | [] => []
  end.

Definition strip (s : list ascii) : list ascii :=
  rev (strip_left (rev (strip_left s))).

(** [after_digit] says whether the previous character was a digit. *)
Fixpoint digits (acc : Z) (after_digit : bool) (s : list ascii) : option Z :=
  match s with
  | [] => if after_digit then Some acc else None
  | c :: s' =>
      match digit_of c with
      | Some d => digits (10 * acc + d) true s'
      | None =>
          if (Ascii.eqb c "_"%char && after_digit)%bool
          then digits acc false s' else None
      end
  end.

Definition int_of_str (s : string) : result Z :=
  let cs := strip (String.list_ascii_of_string s) in
  let parsed :=
    match cs with
    | c :: cs' =>
        if Ascii.eqb c "-"%char then Z.opp <$> digits 0 false cs'
        else if Ascii.eqb c "+"%char then digits 0 false cs'
        else digits 0 false cs
    | [] => None
    end in
  match parsed with
  | Some z => Ok z
  | None => Err ValueError
  end.

(** *** [sorted(xs, key=f)]

    The keys are computed first, in order; the sort is stable and compares
    keys with [<] only. *)
Section sorted.
Context {X Kt : Type} (key : X -> result Kt) (lt : Kt -> Kt -> bool).

Fixpoint insert (x : Kt * X) (l : list (Kt * X)) : list (Kt * X) :=
  match l with
  | [] => [x]
  | y :: l' => if lt y.1 x.1 then y :: insert x l' else x :: l
  end.

Definition sort_keyed (l : list (Kt * X)) : list (Kt * X) :=
  foldr insert [] l.

(** [a] may stand before [b]: the key of [b] is not below the key of [a]. *)
Definition before (a b : Kt * X) : Prop := lt b.1 a.1 = false.

Definition sorted (xs : list X) : result (list X) :=
  bind (map_each (fun x => bind (key x) (fun k => Ok (k, x))) xs)
       (fun keyed => Ok ((sort_keyed keyed).*2)).
End sorted.

(** [(a1, b1) < (a2, b2)] on tuples of an [int] and a [float]. *)
Definition tuple_lt (k1 k2 : Z * Q) : bool :=
  if k1.1 =? k2.1 then Qlt_bool k1.2 k2.2 else k1.1 <? k2.1.

(** *** Dictionaries *)

Section dict.
Context {K V : Type} `{EqDecision K}.

Definition dict : Type := list (K * V).

Fixpoint get (d : dict) (k : K) : option V :=
  match d with
  | [] => None
  | (k', v) :: d' => if decide (k' = k) then Some v else get d' k
  end.

(** [d[k] = v] *)
Fixpoint set (d : dict) (k : K) (v : V) : dict :=
  match d with
  | [] => [(k, v)]
  | (k', v') :: d' =>
      if decide (k' = k) then (k', v) :: d' else (k', v') :: set d' k v
  end.

Definition keys (d : dict) : list K := d.*1.
Definition values (d : dict) : list V := d.*2.

(** [d[k]], which raises [KeyError] when [k] is missing. *)
Definition item (d : dict) (k : K) : result V :=
  match get d k with
  | Some v => Ok v
  | None => Err KeyError
  end.

(** [{k: v for (k, v) in pairs}] and [dict(pairs)]. *)
Definition of_pairs (pairs : list (K * V)) : dict :=
  fold_left (fun d kv => set d kv.1 kv.2) pairs [].
End dict.
Global Arguments dict : clear implicits.

End Py.

#[global] Instance result_bind : MBind Py.result :=
  fun A B k r => Py.bind r k.
#[global] Instance result_ret : MRet Py.result := @Py.Ok.

Import Py (Ok, Err).

(** ** [src/mei.py] *)

Module Mei.

(** *** The score elements

    An attribute of an XML element that the code passes to [float]: it is
    missing ([elem.get] returns [None]), or its text is not a number, or it
    is a number. *)
Inductive attr : Type :=
| Absent
| Malformed
| Number (q : Q).

Definition float (a : attr) : Py.result Q :=
  match a with
  | Absent => Err Py.TypeError
  | Malformed => Err Py.ValueError
  | Number q => Ok q
  end.

Inductive local : Type := note | rest.

(** A [note] or [rest] element of the timing-annotated document, in
    document order. [mei_ns] says whether its tag is in the MEI namespace
    (the XPath selects on the local name only, the test on [elem.tag]
    compares the qualified name). *)
Record element : Type := {
  local_name : local;
  mei_ns : bool;
  xml_id : option string;
  pnum : attr;
  midi_date : attr;
  midi_dur : attr
}.

(** [[@midi.dur]] *)
Definition has_dur (e : element) : bool :=
  match midi_dur e with
  | Absent => false
  | _ => true
  end.

(** [elem.tag == '{http://www.music-encoding.org/ns/mei}note'] *)
Definition is_mei_note (e : element) : bool :=
  match local_name e with
  | note => mei_ns e
  | rest => false
  end.

(** A value of [notes_and_rests]. *)
Record note_or_rest : Type := {
  pitch : option Z;
  date : Q;
  dur : Q
}.

(** *** The chroma matrix: a list of rows *)

Abbreviation matrix := (list (list Q)).

(** [np.zeros((rows, cols))] *)
Definition zeros (rows : nat) (cols : Z) : Py.result matrix :=
  if cols <? 0 then Err Py.ValueError
  else Ok (replicate rows (replicate (Z.to_nat cols) 0%Q)).

(** [m.shape[1]] *)
Definition shape1 (m : matrix) : Z :=
  Z.of_nat (length (hd [] m)).

(** [m[r, start:stop] += 1] *)
Definition add_slice (start stop : Z) (row : list Q) : list Q :=
  imap (fun j x =>
          if Py.in_slice (Z.of_nat (length row)) start stop j
          then (x + 1)%Q else x) row.

Definition add_row_slice (m : matrix) (r : Z) (start stop : Z) : matrix :=
  alter (add_slice start stop) (Z.to_nat r) m.

(** [librosa.util.normalize(S)] with the library's defaults [norm=np.inf],
    [axis=0], [threshold=None], [fill=None]: the norm is taken along axis 0,
    so every column is divided by its largest magnitude, and a column whose
    norm is below [tiny] (the smallest positive normal number of the
    matrix's type, 2^-14 for [float16]) is left as it is. *)
Definition tiny : Q := 1 # 16384.

(** [np.max(np.abs(S), axis=0)]; the cells are magnitudes, so the fold can
    start from zero. *)
Definition column_norms (S : matrix) : list Q :=
  foldr (fun row acc => zip_with Py.max acc (Qabs <$> row))
        (replicate (length (hd [] S)) 0%Q) S.

Definition normalize (S : matrix) : matrix :=
  let length := column_norms S in
  let length := (fun l => if Py.Qlt_bool l tiny then 1%Q else l) <$> length in
  (fun row => zip_with Qdiv row length) <$> S.

(** *** [_meico_to_chroma] *)

(** The state of the first loop. [shortest_duration] starts as [np.inf]. *)
Record scan : Type := {
  shortest_duration : option Q;
  highest_date : Q;
  notes_and_rests : Py.dict (option string) note_or_rest
}.

Definition scan0 : scan :=
  {| shortest_duration := None; highest_date := 0; notes_and_rests := [] |}.

(** [min(shortest_duration, dur)] *)
Definition min_inf (s : option Q) (d : Q) : Q :=
  match s with
  | None => d
  | Some s => Py.min s d
  end.

(** The body of the first loop (lines 77 to 90). *)
Definition scan_elem (st : scan) (elem : element) : Py.result scan :=
  let identifier := xml_id elem in
  p ← (if is_mei_note elem
        then x ← float (pnum elem); Ok (Some (Py.int x))
        else Ok None);
  dt ← float (midi_date elem);
  du ← float (midi_dur elem);
  Ok {| shortest_duration := Some (min_inf (shortest_duration st) du);
        highest_date := Py.max (highest_date st) (dt + du)%Q;
        notes_and_rests :=
          Py.set (notes_and_rests st) identifier
                 {| pitch := p; date := dt; dur := du |} |}.

(** [x / shortest_duration], where dividing by [np.inf] gives zero. *)
Definition div_shortest (x : Q) (s : option Q) : Py.result Q :=
  match s with
  | None => Ok 0%Q
  | Some s => Py.div x s
  end.

(** The body of the second loop (lines 97 to 103). *)
Definition place (s : option Q)
    (st : matrix * Py.dict (option string) Z)
    (kv : option string * note_or_rest)
  : Py.result (matrix * Py.dict (option string) Z) :=
  let '(chroma_matrix, id_to_chroma_index) := st in
  let '(elem, note_or_rest) := kv in
  q ← div_shortest (date note_or_rest) s;
  let begin := Qfloor q in
  let id_to_chroma_index := Py.set id_to_chroma_index elem begin in
  match pitch note_or_rest with
  | Some p =>
      q' ← div_shortest (date note_or_rest + dur note_or_rest)%Q s;
      let end_ := Qceiling q' in
      let end_ := Z.min end_ (shape1 chroma_matrix) in
      Ok (add_row_slice chroma_matrix (p mod 12) begin end_,
          id_to_chroma_index)
  | None => Ok (chroma_matrix, id_to_chroma_index)
  end.

Definition _meico_to_chroma (elems : list element)
  : Py.result (matrix * Py.dict (option string) Z) :=
  st ← Py.for_each scan_elem (filter (fun e => has_dur e = true) elems) scan0;
  w ← div_shortest (highest_date st) (shortest_duration st);
  chroma_matrix ← zeros 12 (Py.int w);
  '(chroma_matrix, id_to_chroma_index) ←
    Py.for_each (place (shortest_duration st)) (notes_and_rests st)
                (chroma_matrix, []);
  Ok (normalize chroma_matrix, id_to_chroma_index).

(** *** [get_measure_timestamps]

    The elements of the score document: the qualified tag (as [elem.tag]
    gives it), the two attributes the function reads and the child
    elements. *)
#[warnings="-register-all"]
Inductive xml : Type :=
| Element (tag : string) (id : option string) (n : option string)
          (children : list xml).

Definition xml_n (e : xml) : option string :=
  match e with Element _ _ n _ => n end.
Definition xml_xmlid (e : xml) : option string :=
  match e with Element _ i _ _ => i end.

Definition mei_measure : string :=
  "{http://www.music-encoding.org/ns/mei}measure".

(** The element or one of its descendants carries [xml:id = key]. *)
Fixpoint holds_id (key : string) (e : xml) : bool :=
  match e with
  | Element _ i _ cs =>
      bool_decide (i = Some key) || existsb (holds_id key) cs
  end.

(** [//*[@xml:id="key"]/ancestor::mei:measure]: the [measure] elements
    with a proper descendant whose [xml:id] is [key], in document order.
    (The key is spliced into the expression between double quotes; keys
    that contain a double quote are outside this model.) *)
Fixpoint xpath_measures (key : string) (e : xml) : list xml :=
  match e with
  | Element t _ _ cs =>
      (if bool_decide (t = mei_measure) && existsb (holds_id key) cs
       then [e] else [])
      ++ flat_map (xpath_measures key) cs
  end.

Record MeasureEntry : Type := {
  measure_number : string;
  measure_id : string;
  timestamp_sec : Q
}.

(** The two warnings the function prints. *)
Inductive warning : Type :=
| NoMeasureFound (key : string)
| NoNumberOrId (key : string).

(** The body of the loop (lines 129 to 152); the state is [result] and the
    lines printed so far. *)
Definition lookup_measure (output_json : Py.dict string Q) (mei_tree : xml)
    (st : list MeasureEntry * list warning) (key : string)
  : Py.result (list MeasureEntry * list warning) :=
  let '(result, printed) := st in
  let measure_elems := xpath_measures key mei_tree in
  match measure_elems with
  | [] => Ok (result, printed ++ [NoMeasureFound key])
  | measure_elem :: _ =>
      match xml_n measure_elem, xml_xmlid measure_elem with
      | Some number, Some mid =>
          ts ← Py.item output_json key;
          Ok (result ++ [{| measure_number := number;
                            measure_id := mid;
                            timestamp_sec := ts |}], printed)
      | _, _ => Ok (result, printed ++ [NoNumberOrId key])
      end
  end.

Definition get_measure_timestamps (output_json : Py.dict string Q)
    (mei_tree : xml) : Py.result (list MeasureEntry * list warning) :=
  Py.for_each (lookup_measure output_json mei_tree)
              (Py.keys output_json) ([], []).

(** *** [filter_measures_by_tstamp] *)

(** The body of the loop (lines 166 to 171). *)
Definition keep_earliest (seen : Py.dict string MeasureEntry)
    (line : MeasureEntry) : Py.dict string MeasureEntry :=
  let mid := measure_id line in
  let timestamp := timestamp_sec line in
  match Py.get seen mid with
  | None => Py.set seen mid line
  | Some old =>
      if Py.Qlt_bool timestamp (timestamp_sec old)
      then Py.set seen mid line
      else seen
  end.

(** The sort key [(int(x['measure_number']), x['timestamp_sec'])]. *)
Definition sort_key (x : MeasureEntry) : Py.result (Z * Q) :=
  k ← Py.int_of_str (measure_number x);
  Ok (k, timestamp_sec x).

Definition filter_measures_by_tstamp (measure_timestamps : list MeasureEntry)
  : Py.result (list MeasureEntry) :=
  let seen := fold_left keep_earliest measure_timestamps [] in
  Py.sorted sort_key Py.tuple_lt (Py.values seen).

End Mei.

(** ** [src/main.py], steps 3 and 4 *)

Module Main.

(** Step 2, line 50: [chroma_size = round(len(audio_data) /
    chroma_mei.shape[1])], the hop length handed to the audio chroma
    extraction. *)
Definition chroma_size (audio_len : Z) (chroma_mei : Mei.matrix)
  : Py.result Z :=
  x ← Py.div (inject_Z audio_len) (inject_Z (Mei.shape1 chroma_mei));
  Ok (Py.round x).

(** [path_dict = {key: value for (key, value) in path}] *)
Definition path_dict (path : list (Z * Z)) : Py.dict Z Z :=
  Py.of_pairs path.

(** The body of the loop of step 4 (lines 77 and 78). *)
Definition time_of (path_dict : Py.dict Z Z)
    (id_to_chroma_index : Py.dict (option string) Z)
    (chroma_length trim_start : Q)
    (id_to_time : Py.dict (option string) Q) (id : option string)
  : Py.result (Py.dict (option string) Q) :=
  col ← Py.item id_to_chroma_index id;
  a ← Py.item path_dict col;
  let id_to_time := Py.set id_to_time id (inject_Z a * chroma_length)%Q in
  t ← Py.item id_to_time id;
  Ok (Py.set id_to_time id (t + trim_start / 1000)%Q).

(** Step 4. [audio_len] is [len(audio_data)], [columns] is
    [chroma_audio.shape[1]]; [frame_rate] and [trim_start] come from
    [process_audio]. *)
Definition id_to_time (audio_len : Z) (frame_rate : Q) (columns : Z)
    (trim_start : Q) (path_dict : Py.dict Z Z)
    (id_to_chroma_index : Py.dict (option string) Z)
  : Py.result (Py.dict (option string) Q) :=
  x ← Py.div (inject_Z audio_len) frame_rate;
  chroma_length ← Py.div x (inject_Z columns);
  Py.for_each (time_of path_dict id_to_chroma_index chroma_length trim_start)
              (Py.keys id_to_chroma_index) [].

End Main.



(** ** The vocabulary of the specification *)

Module Spec.
Import Mei.
Local Open Scope Q_scope.

(** The qualifying (duration-bearing) elements of a score. *)
Definition qualifying (elems : list element) : list element :=
  filter (fun e => has_dur e = true) elems.

(** [s] is the smallest duration of the elements [qs]. *)
Definition shortest_duration_tick (qs : list element) (s : Q) : Prop :=
  (exists e u, e ∈ qs /\ midi_dur e = Number u /\ u == s)
  /\ forall e u, e ∈ qs -> midi_dur e = Number u -> s <= u.

(** [h] is the largest [onset + duration] of the elements [qs], and zero
    when no element ends after the start of the score. *)
Definition highest_end_tick (qs : list element) (h : Q) : Prop :=
  (h == 0 \/ exists e d u,
      e ∈ qs /\ midi_date e = Number d /\ midi_dur e = Number u /\ d + u == h)
  /\ 0 <= h
  /\ forall e d u,
      e ∈ qs -> midi_date e = Number d -> midi_dur e = Number u -> d + u <= h.

(** Column [j] of a matrix. *)
Definition column (j : nat) (m : matrix) : list Q :=
  (fun row => nth j row 0) <$> m.

(** A vector is normalized when it is all zero or its largest magnitude
    is one. *)
Definition normalized (v : list Q) : Prop :=
  Forall (fun x => x == 0) v
  \/ (Exists (fun x => Qabs x == 1) v /\ Forall (fun x => Qabs x <= 1) v).

(** What the first loop stores for an element whose attributes are
    numbers. *)
Definition date_of (e : element) : Q :=
  match midi_date e with Number q => q | _ => 0 end.
Definition dur_of (e : element) : Q :=
  match midi_dur e with Number q => q | _ => 0 end.
Definition pitch_of (e : element) : option Z :=
  if is_mei_note e
  then match pnum e with Number q => Some (Py.int q) | _ => None end
  else None.
Definition data_of (e : element) : note_or_rest :=
  {| pitch := pitch_of e; date := date_of e; dur := dur_of e |}.

(** The attributes the first loop converts are numbers. *)
Definition well_formed (e : element) : Prop :=
  (exists d, midi_date e = Number d)
  /\ (exists u, midi_dur e = Number u)
  /\ (is_mei_note e = true -> exists p, pnum e = Number p).

(** The first loop on well-formed elements. *)
Definition scan_pure (st : scan) (e : element) : scan :=
  {| shortest_duration := Some (min_inf (shortest_duration st) (dur_of e));
     highest_date := Py.max (highest_date st) (date_of e + dur_of e);
     notes_and_rests := Py.set (notes_and_rests st) (xml_id e) (data_of e) |}.

(** The measure entry of a key of the timestamp map: the number and the
    identifier of the first measure that the XPath returns, when there is
    one and it has both. *)
Definition entry_for (output_json : Py.dict string Q) (mei_tree : xml)
    (key : string) : option MeasureEntry :=
  match xpath_measures key mei_tree, Py.get output_json key with
  | measure_elem :: _, Some ts =>
      match xml_n measure_elem, xml_xmlid measure_elem with
      | Some number, Some mid =>
          Some {| measure_number := number; measure_id := mid;
                  timestamp_sec := ts |}
      | _, _ => None
      end
  | _, _ => None
  end.

(** The warning printed for a key. *)
Definition warning_for (mei_tree : xml) (key : string) : option warning :=
  match xpath_measures key mei_tree with
  | [] => Some (NoMeasureFound key)
  | measure_elem :: _ =>
      match xml_n measure_elem, xml_xmlid measure_elem with
      | Some _, Some _ => None
      | _, _ => Some (NoNumberOrId key)
      end
  end.

(** The order of the final list: by measure number read as an integer,
    then by timestamp. *)
Definition ordered (x y : MeasureEntry) : Prop :=
  exists kx ky : Z,
    Py.int_of_str (measure_number x) = Ok kx
    /\ Py.int_of_str (measure_number y) = Ok ky
    /\ ((kx < ky)%Z \/ (kx = ky /\ timestamp_sec x <= timestamp_sec y)).

(** What [seen] holds after the lines [ls]. *)
Definition earliest (ls : list MeasureEntry)
    (seen : Py.dict string MeasureEntry) : Prop :=
  NoDup (Py.keys seen)
  /\ (forall k v, (k, v) ∈ seen -> measure_id v = k /\ v ∈ ls)
  /\ (forall e, e ∈ ls ->
        exists v, Py.get seen (measure_id e) = Some v
                  /\ timestamp_sec v <= timestamp_sec e).

(** The time of a score column: the audio column that the path dictionary
    gives, scaled to seconds, plus the trim offset. *)
Definition time_seconds (path_dict : Py.dict Z Z)
    (chroma_length trim_start : Q) (col : Z) : Q :=
  match Py.get path_dict col with
  | Some a => inject_Z a * chroma_length + trim_start / 1000
  | None => 0
  end.

(** A cell that counts notes. *)
Definition count (x : Q) : Prop :=
  exists n : Z, (0 <= n)%Z /\ x == inject_Z n.

(** A matrix of twelve rows of [w] counts. *)
Definition counts (w : nat) (m : matrix) : Prop :=
  length m = 12%nat
  /\ Forall (fun row => length row = w /\ Forall count row) m.

(** The first and the last column (exclusive, clamped to the width [w])
    of an element on the grid of step [s]. *)
Definition begin_of (s : Q) (nr : note_or_rest) : Z :=
  Qfloor (date nr / s).
Definition end_of (s : Q) (w : Z) (nr : note_or_rest) : Z :=
  Z.min (Qceiling ((date nr + dur nr) / s)) w.

(** The second loop when the grid step is a number other than zero. *)
Definition place_pure (s : Q)
    (st : matrix * Py.dict (option string) Z)
    (kv : option string * note_or_rest)
  : matrix * Py.dict (option string) Z :=
  (match pitch kv.2 with
   | Some p =>
       add_row_slice st.1 (p mod 12)
                     (begin_of s kv.2) (end_of s (shape1 st.1) kv.2)
   | None => st.1
   end,
   Py.set st.2 kv.1 (begin_of s kv.2)).

(** What [_meico_to_chroma] returns from the state [st] of the first
    loop when the grid step [s] is a number other than zero. *)
Definition chroma_pure (s : Q) (st : scan)
  : matrix * Py.dict (option string) Z :=
  let w := Py.int (highest_date st / s) in
  let r := fold_left (place_pure s) (notes_and_rests st)
                     (replicate 12 (replicate (Z.to_nat w) 0), []) in
  (normalize r.1, r.2).

(** The cell of row [r] and column [j]. *)
Definition cell (m : matrix) (r j : nat) : Q :=
  nth j (nth r m []) 0.

(** The stored note [nr] adds energy to the cell of row [r] and column [j]
    of a matrix of width [w]. *)
Definition covers (s : Q) (w : Z) (r j : nat) (nr : note_or_rest) : bool :=
  match pitch nr with
  | Some p =>
      bool_decide (Z.to_nat (p mod 12) = r)
      && Py.in_slice w (begin_of s nr) (end_of s w nr) j
  | None => false
  end.

(** The elements below an element, in document order. *)
Fixpoint descendants (e : xml) : list xml :=
  match e with
  | Element _ _ _ cs => flat_map (fun c => c :: descendants c) cs
  end.

Definition xml_tag (e : xml) : string :=
  match e with Element t _ _ _ => t end.

(** [e] is a [measure] element of the MEI namespace. *)
Definition is_measure (e : xml) : bool :=
  bool_decide (xml_tag e = mei_measure).

(** An element below [e] carries [xml:id = key]. *)
Definition encloses (key : string) (e : xml) : bool :=
  existsb (fun d => bool_decide (xml_xmlid d = Some key)) (descendants e).

(** Structural induction on documents. *)
Fixpoint xml_induction (P : xml -> Prop)
    (step : forall t i n cs, Forall P cs -> P (Element t i n cs))
    (e : xml) : P e :=
  match e with
  | Element t i n cs =>
      step t i n cs
        ((fix all (cs : list xml) : Forall P cs :=
            match cs with
            | [] => @List.Forall_nil _ P
            | c :: cs' =>
                @List.Forall_cons _ P c cs' (xml_induction P step c) (all cs')
            end) cs)
  end.

(** A warp path that runs from the end of both sequences to their start:
    neither coordinate grows from a pair to the next. *)
Definition descending (path : list (Z * Z)) : Prop :=
  Sorted (fun p q : Z * Z => (q.1 <= p.1)%Z /\ (q.2 <= p.2)%Z) path.

End Spec.

(** ** Sample scores *)

Module Examples.
Import Mei.
Local Open Scope Q_scope.

Definition mk_note (id : string) (p d u : Q) : element :=
  {| local_name := note; mei_ns := true; xml_id := Some id;
     pnum := Number p; midi_date := Number d; midi_dur := Number u |}.

Definition mk_rest (id : string) (d u : Q) : element :=
  {| local_name := rest; mei_ns := true; xml_id := Some id;
     pnum := Absent; midi_date := Number d; midi_dur := Number u |}.

(** A rest that the timing expander gave no duration. *)
Definition bare_rest (id : string) : element :=
  {| local_name := rest; mei_ns := true; xml_id := Some id;
     pnum := Absent; midi_date := Absent; midi_dur := Absent |}.

(** Two notes in a row, the second longer than the first. *)
Definition two_notes : list element :=
  [mk_note "a" 60 0 2; mk_note "b" 61 2 3].

(** Two C and one C sharp sounding together. *)
Definition chord : list element :=
  [mk_note "a" 60 0 1; mk_note "b" 72 0 1; mk_note "c" 61 0 1].



(** The same identifier twice. *)
Definition same_id : list element :=
  [mk_note "a" 60 0 1; mk_note "a" 62 1 1].

(** A score of two measures; the second has a number and no identifier. *)
Definition score : xml :=
  Element "{http://www.music-encoding.org/ns/mei}mei" None None
    [Element mei_measure (Some "m1"%string) (Some "1"%string)
       [Element "{http://www.music-encoding.org/ns/mei}note"
                (Some "a"%string) None []];
     Element mei_measure None (Some "2"%string)
       [Element "{http://www.music-encoding.org/ns/mei}note"
                (Some "b"%string) None []]].

Definition mk_entry (number mid : string) (ts : Q) : MeasureEntry :=
  {| measure_number := number; measure_id := mid; timestamp_sec := ts |}.

(** Entries of three measures, out of order, one measure seen twice. *)
Definition entries : list MeasureEntry :=
  [mk_entry "10" "m10" 5; mk_entry "2" "m2" 7; mk_entry "10" "m10" 3;
   mk_entry "1" "m1" 0].

(** A warp path that visits score column 1 twice, and the index
    dictionary of a note and an element without identifier. *)
Definition warp_path : list (Z * Z) := [(1, 3); (1, 2); (0, 0)]%Z.
Definition indices : Py.dict (option string) Z :=
  [(Some "a"%string, 1%Z); (None, 0%Z)].

(** A measure inside a measure; the note is in the inner one. *)
Definition nested : xml :=
  Element mei_measure (Some "outer"%string) (Some "1"%string)
    [Element mei_measure (Some "inner"%string) (Some "2"%string)
       [Element "{http://www.music-encoding.org/ns/mei}note"
                (Some "a"%string) None []]].


(** Rests only. *)
Definition rests : list element := [mk_rest "r" 0 2; mk_rest "s" 2 2].

(** A timestamp map whose last key is not in the score. *)
Definition timestamps : Py.dict string Q :=
  [("a"%string, 1); ("b"%string, 2); ("c"%string, 3)].
End Examples.

(** * Facts *)

(** ** The result monad *)

Lemma bind_Ok {A B} (r : Py.result A) (k : A -> Py.result B) (b : B) :
  r ≫= k = Ok b <-> exists a, r = Ok a /\ k a = Ok b.
Proof.
  destruct r as [a|e]; simpl; split.
  - intros H. exists a. auto.
  - intros (a' & [= <-] & H). exact H.
  - intros [=].
  - intros (a' & [=] & _).
Qed.

(** A loop whose body never raises is a left fold. *)
Lemma for_each_pure {S X} (body : S -> X -> Py.result S) (f : S -> X -> S) xs s :
  (forall s x, x ∈ xs -> body s x = Ok (f s x)) ->
  Py.for_each body xs s = Ok (fold_left f xs s).
Proof.
  revert s. induction xs as [|x xs IH]; intros s Hb; simpl; [done|].
  rewrite Hb by left. simpl. apply IH. intros. apply Hb. by right.
Qed.

(** ** Dictionaries *)

Section dict_facts.
Context {K V : Type} `{EqDecision K}.
Implicit Types (d : Py.dict K V) (k : K) (v : V).

Lemma get_set_eq d k v : Py.get (Py.set d k v) k = Some v.
Proof.
  induction d as [|[k' v'] d IH]; simpl.
  - by rewrite decide_True.
  - destruct (decide (k' = k)) as [->|Hne]; simpl.
    + by rewrite decide_True.
    + by rewrite decide_False.
Qed.

Lemma get_set_ne d k k' v : k <> k' -> Py.get (Py.set d k v) k' = Py.get d k'.
Proof.
  intros Hne. induction d as [|[k0 v0] d IH]; simpl.
  - by rewrite decide_False.
  - destruct (decide (k0 = k)) as [->|Hne0]; simpl.
    + by rewrite !decide_False.
    + by rewrite IH.
Qed.

Lemma get_None d k : Py.get d k = None <-> k ∉ Py.keys d.
Proof.
  unfold Py.keys. induction d as [|[k' v'] d IH]; simpl.
  - split; [intros _; apply not_elem_of_nil | done].
  - rewrite not_elem_of_cons. destruct (decide (k' = k)) as [->|Hne].
    + split; [done | intros [? _]; done].
    + rewrite IH. split; [intros H; split; [congruence | done] | by intros [_ H]].
Qed.

Lemma get_Some_elem d k v : Py.get d k = Some v -> (k, v) ∈ d.
Proof.
  induction d as [|[k' v'] d IH]; simpl; [done|].
  destruct (decide (k' = k)) as [->|Hne].
  - intros [= ->]. left.
  - intros H. right. auto.
Qed.

Lemma elem_get d k v : NoDup (Py.keys d) -> (k, v) ∈ d -> Py.get d k = Some v.
Proof.
  unfold Py.keys. induction d as [|[k' v'] d IH]; simpl.
  - intros _ H. by apply elem_of_nil in H.
  - rewrite NoDup_cons. intros [Hk Hd]. rewrite elem_of_cons.
    intros [[= -> ->]|Hin].
    + by rewrite decide_True.
    + rewrite decide_False; [auto|].
      intros ->. apply Hk. apply list_elem_of_fmap. by exists (k, v).
Qed.

Lemma keys_set d k v :
  Py.keys (Py.set d k v)
  = match Py.get d k with
    | Some _ => Py.keys d
    | None => Py.keys d ++ [k]
    end.
Proof.
  unfold Py.keys. induction d as [|[k' v'] d IH]; simpl; [done|].
  destruct (decide (k' = k)) as [->|Hne]; simpl; [done|].
  revert IH. destruct (Py.get d k); intros IH; simpl; f_equal; exact IH.
Qed.

Lemma NoDup_keys_set d k v : NoDup (Py.keys d) -> NoDup (Py.keys (Py.set d k v)).
Proof.
  intros Hd. rewrite keys_set. destruct (Py.get d k) eqn:Hg; [done|].
  apply NoDup_app. split_and!; [done| |apply NoDup_singleton].
  intros x Hx ->%list_elem_of_singleton. by apply get_None in Hg.
Qed.

(** Folding assignments into a dictionary: the last pair of a key wins. *)
Lemma get_fold_set (pairs : list (K * V)) d k :
  Py.get (fold_left (fun d kv => Py.set d kv.1 kv.2) pairs d) k
  = match last (filter (fun kv => kv.1 = k) pairs) with
    | Some kv => Some kv.2
    | None => Py.get d k
    end.
Proof.
  revert d. induction pairs as [|[k' v'] pairs IH]; intros d; simpl; [done|].
  rewrite IH. rewrite filter_cons. simpl.
  destruct (decide (k' = k)) as [->|Hne].
  - rewrite last_cons. destruct (last _); [done|]. simpl. apply get_set_eq.
  - destruct (last _); [done|]. by apply get_set_ne.
Qed.

Lemma set_fresh d k v : k ∉ Py.keys d -> Py.set d k v = d ++ [(k, v)].
Proof.
  unfold Py.keys. induction d as [|[k' v'] d IH]; simpl; [done|].
  rewrite not_elem_of_cons. intros [Hne Hk].
  rewrite decide_False by done. by rewrite IH.
Qed.

(** Assigning pairwise distinct fresh keys appends the pairs in order. *)
Lemma fold_set_fresh (pairs : list (K * V)) d :
  NoDup (Py.keys d ++ pairs.*1) ->
  fold_left (fun d kv => Py.set d kv.1 kv.2) pairs d = d ++ pairs.
Proof.
  unfold Py.keys. revert d.
  induction pairs as [|[k v] pairs IH]; intros d Hnd; simpl.
  - by rewrite app_nil_r.
  - simpl in Hnd. rewrite set_fresh.
    + rewrite IH; [by rewrite <- app_assoc|].
      rewrite fmap_app. simpl. by rewrite <- app_assoc.
    + apply NoDup_app in Hnd as (_ & Hdisj & _).
      intros Hk. apply (Hdisj k Hk). left.
Qed.

Lemma elem_set d k v kv : kv ∈ Py.set d k v -> kv ∈ d \/ kv = (k, v).
Proof.
  induction d as [|[k' v'] d IH]; simpl.
  - intros ->%list_elem_of_singleton. by right.
  - destruct (decide (k' = k)) as [->|Hne]; rewrite !elem_of_cons.
    + intros [->|H]; [by right | left; by right].
    + intros [->|H]; [left; by left|].
      destruct (IH H) as [?|?]; [left; by right | by right].
Qed.

Lemma elem_fold_set (pairs : list (K * V)) d kv :
  kv ∈ fold_left (fun d kv => Py.set d kv.1 kv.2) pairs d ->
  kv ∈ d \/ kv ∈ pairs.
Proof.
  revert d. induction pairs as [|[k v] pairs IH]; intros d; simpl; [by left|].
  intros [[H| ->]%elem_set|H]%IH.
  - by left.
  - right. left.
  - right. by right.
Qed.
End dict_facts.

(** ** Numbers *)

Lemma Qlt_bool_true (x y : Q) : Py.Qlt_bool x y = true <-> (x < y)%Q.
Proof.
  unfold Py.Qlt_bool. rewrite negb_true_iff. split.
  - intros H. apply Qnot_le_lt. intros Hle. apply Qle_bool_iff in Hle. congruence.
  - intros H. destruct (Qle_bool y x) eqn:E; [|done].
    apply Qle_bool_iff in E. lra.
Qed.

Lemma Qlt_bool_false (x y : Q) : Py.Qlt_bool x y = false <-> (y <= x)%Q.
Proof.
  unfold Py.Qlt_bool. rewrite negb_false_iff. apply Qle_bool_iff.
Qed.

Lemma py_min_spec (a b : Q) :
  (Py.min a b = a \/ Py.min a b = b) /\ (Py.min a b <= a)%Q /\ (Py.min a b <= b)%Q.
Proof.
  unfold Py.min. destruct (Py.Qlt_bool b a) eqn:E.
  - apply Qlt_bool_true in E. split_and!; [by right | lra | lra].
  - apply Qlt_bool_false in E. split_and!; [by left | lra | lra].
Qed.

Lemma py_max_spec (a b : Q) :
  (Py.max a b = a \/ Py.max a b = b) /\ (a <= Py.max a b)%Q /\ (b <= Py.max a b)%Q.
Proof.
  unfold Py.max. destruct (Py.Qlt_bool a b) eqn:E.
  - apply Qlt_bool_true in E. split_and!; [by right | lra | lra].
  - apply Qlt_bool_false in E. split_and!; [by left | lra | lra].
Qed.

Lemma py_div_Ok (x y q : Q) :
  Py.div x y = Ok q <-> ~ (y == 0)%Q /\ q = (x / y)%Q.
Proof.
  unfold Py.div. destruct (Qeq_bool y 0) eqn:E.
  - apply Qeq_bool_iff in E. split; [done | by intros [? _]].
  - apply Qeq_bool_neq in E. split; [intros [= <-]; done | intros [_ ->]; done].
Qed.

Lemma py_int_nonneg (x : Q) : (0 <= x)%Q -> Py.int x = Qfloor x.
Proof.
  intros H. unfold Py.int. apply Qle_bool_iff in H. by rewrite H.
Qed.

(** ** The warp path as a dictionary *)

(** C9. The dictionary built from the warp path maps a score column to the
    audio column of the last pair of the path that has this score column
    (and has no entry for a score column the path never visits): when the
    path is a run of pairs, then the pair [(k, v)], then pairs none of which
    has the score column [k], the dictionary holds [v] for [k]. *)
Theorem path_dict_last_wins (path : list (Z * Z)) (k : Z) :
  Py.get (Main.path_dict path) k
  = snd <$> last (filter (fun kv => kv.1 = k) path)
  /\ forall before v after,
      path = before ++ (k, v) :: after -> k ∉ after.*1 ->
      Py.get (Main.path_dict path) k = Some v.
Proof.
  unfold Main.path_dict, Py.of_pairs.
  assert (Hget : Py.get (fold_left (fun d kv => Py.set d kv.1 kv.2) path []) k
                 = snd <$> last (filter (fun kv => kv.1 = k) path)).
  { rewrite get_fold_set. by destruct (last _). }
  split; [exact Hget|].
  intros before v after -> Hk. rewrite Hget.
  rewrite filter_app, filter_cons. simpl. rewrite decide_True by done.
  assert (Hno : filter (fun kv : Z * Z => kv.1 = k) after = []).
  { revert Hk. clear. induction after as [|[k' v'] after IH]; [done|].
    rewrite fmap_cons, not_elem_of_cons. intros [Hk1 Hk2].
    rewrite filter_cons. simpl. rewrite decide_False by done. auto. }
  rewrite Hno. by rewrite last_snoc.
Qed.

(** Membership in [l ++ [x]]. *)
Lemma elem_of_snoc {A} (l : list A) (x y : A) : x ∈ l ++ [y] <-> x ∈ l \/ x = y.
Proof. by rewrite elem_of_app, list_elem_of_singleton. Qed.

Ltac elem_snoc := rewrite elem_of_snoc; auto.


(** ** The first loop of [_meico_to_chroma] *)

Section scan_facts.
Import Mei Spec.
Local Open Scope Q_scope.

Lemma float_Ok (a : attr) (q : Q) : float a = Ok q <-> a = Number q.
Proof. destruct a; simpl; split; intros [=]; by subst. Qed.

(** The body of the loop returns exactly on well-formed elements. *)
Lemma scan_elem_Ok (st st' : scan) (e : element) :
  scan_elem st e = Ok st' <-> well_formed e /\ st' = scan_pure st e.
Proof.
  unfold scan_elem, well_formed, scan_pure, data_of, pitch_of, date_of, dur_of.
  destruct (midi_date e) as [| |d], (midi_dur e) as [| |u],
    (is_mei_note e), (pnum e) as [| |p]; simpl;
    (split; [intros [= <-] | intros [(Hd & Hu & Hp) ->]]);
    try done;
    try (split; [split_and!; eauto; done | done]);
    try (by destruct Hd); try (by destruct Hu);
    try (by destruct (Hp eq_refl)).
Qed.

Lemma scan_Ok (qs : list element) (st0 st : scan) :
  Py.for_each scan_elem qs st0 = Ok st
  <-> Forall well_formed qs /\ st = fold_left scan_pure qs st0.
Proof.
  revert st0. induction qs as [|e qs IH]; intros st0; simpl.
  - split; [intros [= <-]; by split | intros [_ ->]; done].
  - rewrite Forall_cons. split.
    + intros H. destruct (scan_elem st0 e) as [st1|] eqn:E; [|done].
      apply scan_elem_Ok in E as [Hwf ->]. apply IH in H as [Hall ->]. done.
    + intros [[Hwf Hall] ->].
      rewrite (proj2 (scan_elem_Ok st0 _ e) (conj Hwf eq_refl)). simpl.
      apply IH. done.
Qed.

Lemma fold_scan_snoc (qs : list element) (e : element) (st0 : scan) :
  fold_left scan_pure (qs ++ [e]) st0 = scan_pure (fold_left scan_pure qs st0) e.
Proof. by rewrite fold_left_app. Qed.

(** [shortest_duration] is infinite on the empty score only, and is
    otherwise the duration of an element that is below all the others. *)
Lemma scan_shortest (qs : list element) :
  match shortest_duration (fold_left scan_pure qs scan0) with
  | None => qs = []
  | Some s =>
      (exists e, e ∈ qs /\ s = dur_of e) /\ forall e, e ∈ qs -> s <= dur_of e
  end.
Proof.
  induction qs as [|e qs IH] using rev_ind; [done|].
  rewrite fold_scan_snoc. simpl.
  destruct (shortest_duration (fold_left scan_pure qs scan0)) as [s|]; simpl.
  - destruct IH as [(e0 & He0 & Hs) Hle].
    destruct (py_min_spec s (dur_of e)) as ([Hm|Hm] & H1 & H2); rewrite Hm in *.
    + split; [exists e0; split; [elem_snoc | done]|].
      intros e' [He'| ->]%elem_of_snoc; auto.
    + split; [exists e; split; [elem_snoc | done]|].
      intros e' [He'| ->]%elem_of_snoc; [|lra].
      specialize (Hle _ He'). lra.
  - subst qs. split; [exists e; split; [elem_snoc | done]|].
    intros e' He'. apply list_elem_of_singleton in He' as ->. lra.
Qed.

Lemma scan_highest (qs : list element) :
  let h := highest_date (fold_left scan_pure qs scan0) in
  (h = 0 \/ exists e, e ∈ qs /\ h = date_of e + dur_of e)
  /\ 0 <= h
  /\ forall e, e ∈ qs -> date_of e + dur_of e <= h.
Proof.
  induction qs as [|e qs IH] using rev_ind.
  - simpl. split_and!; [by left | lra | intros e []%elem_of_nil].
  - rewrite fold_scan_snoc. simpl in *.
    set (h := highest_date (fold_left scan_pure qs scan0)) in *.
    destruct IH as (Hh & H0 & Hle).
    destruct (py_max_spec h (date_of e + dur_of e)) as ([Hm|Hm] & H1 & H2);
      rewrite Hm in *.
    + split_and!; [|done|].
      * destruct Hh as [?|(e0 & ? & ?)]; [by left | right; exists e0; split; [elem_snoc | done]].
      * intros e' [He'| ->]%elem_of_snoc; auto.
    + split_and!; [right; exists e; split; [elem_snoc | done] | lra |].
      intros e' [He'| ->]%elem_of_snoc; [|lra].
      specialize (Hle _ He'). lra.
Qed.

Lemma scan_notes (qs : list element) (st0 : scan) :
  notes_and_rests (fold_left scan_pure qs st0)
  = fold_left (fun d kv => Py.set d kv.1 kv.2)
              ((fun e => (xml_id e, data_of e)) <$> qs) (notes_and_rests st0).
Proof.
  revert st0. induction qs as [|e qs IH]; intros st0; simpl; [done|].
  by rewrite IH.
Qed.
End scan_facts.

(** ** The second loop of [_meico_to_chroma] *)

Section place_facts.
Import Mei Spec.
Local Open Scope Q_scope.

Lemma place_Ok (s : Q) st kv :
  ~ s == 0 -> place (Some s) st kv = Ok (place_pure s st kv).
Proof.
  intros Hs. destruct st as [m idx], kv as [k nr].
  unfold place, place_pure, div_shortest, Py.div. simpl.
  destruct (Qeq_bool s 0) eqn:E; [by apply Qeq_bool_iff in E|]. simpl.
  by destruct (pitch nr).
Qed.

Lemma place_loop (s : Q) d st :
  ~ s == 0 ->
  Py.for_each (place (Some s)) d st = Ok (fold_left (place_pure s) d st).
Proof. intros Hs. apply for_each_pure. intros. by apply place_Ok. Qed.

(** The index dictionary does not depend on the matrix. *)
Lemma place_index (s : Q) d st :
  (fold_left (place_pure s) d st).2
  = fold_left (fun i kv => Py.set i kv.1 kv.2)
              ((fun kv => (kv.1, begin_of s kv.2)) <$> d) st.2.
Proof.
  revert st. induction d as [|kv d IH]; intros st; simpl; [done|].
  by rewrite IH.
Qed.

Lemma count_0 : count 0.
Proof. exists 0%Z. split; [lia | reflexivity]. Qed.

Lemma count_succ (x : Q) : count x -> count (x + 1).
Proof.
  intros (n & Hn & Hx). exists (n + 1)%Z. split; [lia|].
  rewrite inject_Z_plus, Hx. reflexivity.
Qed.

Lemma add_slice_counts (w : nat) a b row :
  length row = w /\ Forall count row ->
  length (add_slice a b row) = w /\ Forall count (add_slice a b row).
Proof.
  intros [Hl Hc]. unfold add_slice. split; [by rewrite length_imap|].
  apply Forall_lookup_2. intros i x. rewrite list_lookup_imap.
  destruct (row !! i) as [y|] eqn:E; simpl; [|done]. intros [= <-].
  pose proof (Forall_lookup_1 _ _ _ _ Hc E) as Hy.
  destruct (Py.in_slice _ _ _ _); [by apply count_succ | done].
Qed.

Lemma replicate_counts (w : nat) : counts w (replicate 12 (replicate w 0)).
Proof.
  split; [apply length_replicate|].
  apply Forall_replicate. split; [apply length_replicate|].
  apply Forall_replicate, count_0.
Qed.

Lemma zeros_counts (w : Z) m :
  zeros 12 w = Ok m -> (0 <= w)%Z /\ counts (Z.to_nat w) m.
Proof.
  unfold zeros. destruct (w <? 0)%Z eqn:E; [done|].
  apply Z.ltb_ge in E. intros H. split; [done|].
  assert (m = replicate 12 (replicate (Z.to_nat w) 0)) as -> by congruence.
  apply replicate_counts.
Qed.

Lemma add_row_slice_counts (w : nat) m r a b :
  counts w m -> counts w (add_row_slice m r a b).
Proof.
  intros [Hl Hrows]. unfold add_row_slice. split.
  - by rewrite length_alter.
  - apply Forall_alter; [done|]. intros row _. apply add_slice_counts.
Qed.

Lemma place_counts (s : Q) (w : nat) d st :
  counts w st.1 -> counts w (fold_left (place_pure s) d st).1.
Proof.
  revert st. induction d as [|kv d IH]; intros st Hst; simpl; [done|].
  apply IH. simpl. destruct (pitch kv.2) as [p|]; [|done].
  by apply add_row_slice_counts.
Qed.
End place_facts.

(** ** Normalization *)

Section normalize_facts.
Import Mei Spec.
Local Open Scope Q_scope.

(** The norms of the columns: one per column, above every magnitude of
    the column, and zero or the magnitude of one of its cells. *)
Lemma column_norms_spec (w : nat) (S : matrix) :
  Forall (fun row => length row = w) S ->
  let norms := foldr (fun row acc => zip_with Py.max acc (Qabs <$> row))
                     (replicate w 0) S in
  length norms = w
  /\ forall j l, norms !! j = Some l ->
       (forall row, row ∈ S -> exists x, row !! j = Some x /\ Qabs x <= l)
       /\ (l = 0 \/ exists row x, row ∈ S /\ row !! j = Some x /\ l = Qabs x).
Proof.
  induction 1 as [|row S Hrow Hall IH]; simpl.
  - split; [apply length_replicate|]. intros j l Hl.
    apply lookup_replicate in Hl as [-> _].
    split; [intros row []%elem_of_nil | by left].
  - destruct IH as [Hlen IH]. split.
    { rewrite length_zip_with, length_fmap. lia. }
    intros j l Hl. apply lookup_zip_with_Some in Hl as (a & b & -> & Ha & Hb).
    rewrite list_lookup_fmap in Hb.
    destruct (row !! j) as [x|] eqn:Hx; [|done]. injection Hb as <-.
    destruct (IH j a Ha) as [Hub Hatt].
    destruct (py_max_spec a (Qabs x)) as (Hm & H1 & H2). split.
    + intros r [->|Hr]%elem_of_cons.
      * exists x. done.
      * destruct (Hub r Hr) as (y & Hy & Hle). exists y. split; [done | lra].
    + destruct Hm as [->| ->].
      * destruct Hatt as [?|(r & y & Hr & Hy & ->)]; [by left|].
        right. exists r, y. split_and!; [by right | done | done].
      * right. exists row, x. split_and!; [by left | done | done].
Qed.

Lemma inject_Z_le (a b : Z) : (a <= b)%Z -> inject_Z a <= inject_Z b.
Proof. intros H. by rewrite <- Zle_Qle. Qed.

Lemma count_small (x : Q) : count x -> Qabs x < tiny -> x == 0.
Proof.
  intros (n & Hn & Hx) Hsmall.
  assert (Habs : Qabs x == inject_Z n).
  { rewrite Hx. apply Qabs_pos. by apply (inject_Z_le 0 n). }
  destruct (decide (n = 0%Z)) as [->|Hne]; [exact Hx|].
  assert (1 <= inject_Z n) by (apply (inject_Z_le 1 n); lia).
  unfold tiny in Hsmall. lra.
Qed.

Lemma Qabs_div_le (x l : Q) : 0 < l -> Qabs x <= l -> Qabs (x / l) <= 1.
Proof.
  intros Hl Hx. unfold Qdiv. rewrite Qabs_Qmult, Qabs_Qinv, (Qabs_pos l) by lra.
  apply Qle_shift_div_r; [done | lra].
Qed.

Lemma Qabs_div_self (x : Q) : 0 < Qabs x -> Qabs (x / Qabs x) == 1.
Proof.
  intros Hx. unfold Qdiv.
  rewrite Qabs_Qmult, Qabs_Qinv, (Qabs_pos (Qabs x)) by lra.
  field. lra.
Qed.

(** A matrix of counts is normalized column by column. *)
Lemma normalize_columns (w : nat) (m : matrix) (j : nat) :
  counts w m -> (j < w)%nat -> normalized (column j (normalize m)).
Proof.
  intros [H12 Hrows] Hj.
  assert (Hlen : Forall (fun row => length row = w) m).
  { eapply Forall_impl; [exact Hrows | by intros ? [? _]]. }
  assert (Hhd : length (hd [] m) = w).
  { destruct m as [|r m]; [done|]. by apply Forall_cons in Hlen as [? _]. }
  unfold normalize, column_norms. rewrite Hhd.
  destruct (column_norms_spec w m Hlen) as [Hnl Hn].
  set (norms := foldr _ _ m) in *.
  destruct (lookup_lt_is_Some_2 norms j) as [l Hl]; [lia|].
  destruct (Hn j l Hl) as [Hub Hatt].
  set (fix_ := fun l : Q => if Py.Qlt_bool l tiny then 1 else l).
  assert (Hcell : forall row, row ∈ m -> exists x,
             row !! j = Some x /\ count x /\ Qabs x <= l
             /\ nth j (zip_with Qdiv row (fix_ <$> norms)) 0 = x / fix_ l).
  { intros row Hrow. destruct (Hub row Hrow) as (x & Hx & Hle).
    exists x. split_and!; [done| |done|].
    - rewrite Forall_forall in Hrows. destruct (Hrows row Hrow) as [_ Hc].
      eapply Forall_lookup_1; eauto.
    - apply nth_lookup_Some. apply lookup_zip_with_Some.
      exists x, (fix_ l). split_and!; [done | done |].
      by rewrite list_lookup_fmap, Hl. }
  unfold normalized, column. rewrite <- !list_fmap_compose.
  rewrite !Forall_fmap, Exists_fmap.
  destruct (Py.Qlt_bool l tiny) eqn:Hsmall.
  - (* the norm is below the threshold: the column is zero *)
    apply Qlt_bool_true in Hsmall. left.
    assert (Hl0 : l == 0).
    { destruct Hatt as [->|(row & x & Hrow & Hx & ->)]; [reflexivity|].
      destruct (Hcell row Hrow) as (x' & Hx' & Hc & _). simplify_eq.
      pose proof (count_small x Hc Hsmall) as H0. by rewrite H0. }
    apply Forall_forall. intros row Hrow. simpl.
    destruct (Hcell row Hrow) as (x & Hx & Hc & Hle & ->).
    assert (Qabs x == 0) as Hx0.
    { pose proof (Qabs_nonneg x). lra. }
    assert (x == 0) as ->.
    { revert Hx0. apply Qabs_case; intros; lra. }
    unfold fix_. apply Qlt_bool_true in Hsmall. rewrite Hsmall. reflexivity.
  - (* the column is divided by its norm *)
    apply Qlt_bool_false in Hsmall. right.
    assert (Hpos : 0 < l) by (unfold tiny in Hsmall; lra).
    assert (Hfix : fix_ l = l).
    { unfold fix_. apply Qlt_bool_false in Hsmall. by rewrite Hsmall. }
    split.
    + destruct Hatt as [->|(row & x & Hrow & Hx & ->)]; [lra|].
      apply Exists_exists. exists row. split; [done|]. simpl.
      destruct (Hcell row Hrow) as (x' & Hx' & _ & _ & ->). simplify_eq.
      rewrite Hfix. by apply Qabs_div_self.
    + apply Forall_forall. intros row Hrow. simpl.
      destruct (Hcell row Hrow) as (x & Hx & _ & Hle & ->).
      rewrite Hfix. by apply Qabs_div_le.
Qed.

Lemma normalize_shape (w : nat) (m : matrix) :
  counts w m ->
  length (normalize m) = 12%nat
  /\ Forall (fun row => length row = w) (normalize m).
Proof.
  intros [H12 Hrows].
  assert (Hlen : Forall (fun row => length row = w) m).
  { eapply Forall_impl; [exact Hrows | by intros ? [? _]]. }
  assert (Hhd : length (hd [] m) = w).
  { destruct m as [|r m]; [done|]. by apply Forall_cons in Hlen as [? _]. }
  unfold normalize, column_norms. rewrite Hhd.
  destruct (column_norms_spec w m Hlen) as [Hnl _].
  split; [by rewrite length_fmap|].
  apply Forall_fmap. eapply Forall_impl; [exact Hlen|].
  intros row Hrow. simpl in *. rewrite length_zip_with, length_fmap, Hnl. lia.
Qed.
End normalize_facts.

(** ** [_meico_to_chroma] as a whole *)

Section builder_facts.
Import Mei Spec.
Local Open Scope Q_scope.

(** When the function returns, and what. *)
Lemma meico_to_chroma_Ok (elems : list element) r :
  _meico_to_chroma elems = Ok r
  <-> Forall well_formed (qualifying elems)
      /\ let st := fold_left scan_pure (qualifying elems) scan0 in
         match shortest_duration st with
         | None => r = (replicate 12 [], [])
         | Some s =>
             ~ s == 0 /\ (0 <= Py.int (highest_date st / s))%Z
             /\ r = chroma_pure s st
         end.
Proof.
  unfold _meico_to_chroma. fold (qualifying elems).
  set (qs := qualifying elems). rewrite bind_Ok. split.
  - intros (st & Hscan & Hrest). apply scan_Ok in Hscan as [Hwf ->].
    split; [done|]. simpl.
    pose proof (scan_shortest qs) as Hsh.
    destruct (shortest_duration (fold_left scan_pure qs scan0)) as [s|] eqn:Es.
    + apply bind_Ok in Hrest as (q & Hq & Hrest). simpl in Hq.
      apply py_div_Ok in Hq as [Hs ->].
      apply bind_Ok in Hrest as (m0 & Hz & Hrest).
      pose proof (zeros_counts _ _ Hz) as [Hw _].
      split; [done|]. split; [done|].
      unfold zeros in Hz. destruct (_ <? 0)%Z; [done|].
      assert (m0 = replicate 12 (replicate (Z.to_nat (Py.int (highest_date (fold_left scan_pure qs scan0) / s))) 0))
        as -> by congruence.
      rewrite place_loop in Hrest by done. simpl in Hrest.
      unfold chroma_pure. destruct (fold_left (place_pure s) _ _) as [m1 i1].
      simpl in *. congruence.
    + rewrite Hsh in *. simpl in Hrest. by injection Hrest as <-.
  - intros [Hwf Hr]. exists (fold_left scan_pure qs scan0).
    split; [by apply scan_Ok|]. simpl in Hr.
    pose proof (scan_shortest qs) as Hsh.
    destruct (shortest_duration (fold_left scan_pure qs scan0)) as [s|] eqn:Es.
    + destruct Hr as (Hs & Hw & ->). simpl.
      rewrite (proj2 (py_div_Ok _ s _) (conj Hs eq_refl)). simpl.
      unfold zeros. apply Z.ltb_ge in Hw. rewrite Hw. simpl.
      rewrite place_loop by done. simpl. unfold chroma_pure.
      by destruct (fold_left (place_pure s) _ _).
    + rewrite Hsh in *. by subst r.
Qed.
End builder_facts.

(** ** The score chromagram builder: the empty score *)

Section empty_score.
Import Mei Spec.

(** C3, as the code has it. A score without qualifying elements raises
    nothing: the function returns a matrix of twelve rows and no column,
    and an empty index dictionary. *)
Theorem empty_score_returns (elems : list element) :
  qualifying elems = [] ->
  _meico_to_chroma elems = Ok (replicate 12 [], []).
Proof.
  intros Hq. apply meico_to_chroma_Ok. rewrite Hq. by split.
Qed.

Lemma empty_score_returns_witness :
  _meico_to_chroma [Examples.bare_rest "x"] = Ok (replicate 12 [], []).
Proof. apply (empty_score_returns [Examples.bare_rest "x"]). reflexivity. Defined.

(** C3, as stated, fails: on a score whose only element has no duration
    the function does not raise. *)
Lemma empty_score_no_error :
  qualifying [Examples.bare_rest "x"] = []
  /\ ~ exists e, _meico_to_chroma [Examples.bare_rest "x"] = Err e.
Proof. split; [reflexivity|]. intros [e He]. discriminate He. Qed.
End empty_score.

(** ** The score chromagram builder: the index dictionary *)

Section index_facts.
Import Mei Spec.
Local Open Scope Q_scope.

(** On a well-formed element the stored values are the attributes. *)
Lemma well_formed_date (e : element) (d : Q) :
  midi_date e = Number d -> date_of e = d.
Proof. unfold date_of. by intros ->. Qed.

Lemma well_formed_dur (e : element) (u : Q) :
  midi_dur e = Number u -> dur_of e = u.
Proof. unfold dur_of. by intros ->. Qed.

(** The grid step the code computes is the shortest duration. *)
Lemma scan_shortest_tick (qs : list element) (s : Q) :
  Forall well_formed qs ->
  shortest_duration (fold_left scan_pure qs scan0) = Some s ->
  shortest_duration_tick qs s.
Proof.
  intros Hwf Hs. pose proof (scan_shortest qs) as H. rewrite Hs in H.
  destruct H as [(e & He & ->) Hle]. split.
  - rewrite Forall_forall in Hwf. destruct (Hwf e He) as (_ & [u Hu] & _).
    exists e, u. split_and!; [done | done |].
    by rewrite (well_formed_dur e u Hu).
  - intros e' u He' Hu. rewrite <- (well_formed_dur e' u Hu). auto.
Qed.

Lemma shortest_duration_tick_unique (qs : list element) (s s' : Q) :
  shortest_duration_tick qs s -> shortest_duration_tick qs s' -> s == s'.
Proof.
  intros [(e & u & He & Hu & Hus) Hle] [(e' & u' & He' & Hu' & Hus') Hle'].
  pose proof (Hle e' u' He' Hu'). pose proof (Hle' e u He Hu). lra.
Qed.

Lemma Qfloor_div_proper (d s s' : Q) : s == s' -> Qfloor (d / s) = Qfloor (d / s').
Proof. intros H. apply Qfloor_comp. by rewrite H. Qed.



End index_facts.

(** ** The score chromagram builder: the matrix *)

Section matrix_facts.
Import Mei Spec.
Local Open Scope Q_scope.


(** The matrix before normalization holds counts; [w] is its width. *)
Lemma chroma_pure_counts (s : Q) (st : scan) :
  let w := Z.to_nat (Py.int (highest_date st / s)) in
  counts w (fold_left (place_pure s) (notes_and_rests st)
                      (replicate 12 (replicate w 0), [])).1.
Proof. intros w. apply place_counts, replicate_counts. Qed.

Lemma rows_shape1 (w : nat) (m : matrix) :
  length m = 12%nat -> Forall (fun row => length row = w) m ->
  shape1 m = Z.of_nat w.
Proof.
  intros Hl Hrows. unfold shape1. destruct m as [|row m]; [done|].
  apply Forall_cons in Hrows as [Hw _]. simpl. by rewrite Hw.
Qed.

Lemma chroma_pure_shape1 (s : Q) (st : scan) :
  (0 <= Py.int (highest_date st / s))%Z ->
  shape1 (chroma_pure s st).1 = Py.int (highest_date st / s).
Proof.
  intros Hw. unfold chroma_pure. cbv zeta. cbn [fst].
  destruct (normalize_shape _ _ (chroma_pure_counts s st)) as [H12 Hrows].
  rewrite (rows_shape1 _ _ H12 Hrows). lia.
Qed.



Lemma Qdiv_nonneg (x s : Q) : 0 <= x -> 0 < s -> 0 <= x / s.
Proof. intros Hx Hs. apply Qle_shift_div_l; [done | lra]. Qed.

Lemma Qdiv_le_mono (x y s : Q) : 0 < s -> x <= y -> x / s <= y / s.
Proof.
  intros Hs Hxy. unfold Qdiv. apply Qmult_le_compat_r; [done|].
  apply Qlt_le_weak, Qinv_lt_0_compat, Hs.
Qed.


(** C1, as the code has it. The matrix the builder returns has twelve
    rows, and it is normalized column by column: every column is all zero
    or has largest magnitude one. *)
Theorem chroma_columns_normalized (elems : list element) m idx :
  _meico_to_chroma elems = Ok (m, idx) ->
  length m = 12%nat
  /\ forall j : nat, (Z.of_nat j < shape1 m)%Z -> normalized (column j m).
Proof.
  intros Hok. apply meico_to_chroma_Ok in Hok as [Hwf Hr]. simpl in Hr.
  set (qs := qualifying elems) in *.
  destruct (shortest_duration _) as [s0|] eqn:Es.
  - destruct Hr as (Hs0 & Hw & Hr).
    assert (m = (chroma_pure s0 (fold_left scan_pure qs scan0)).1) as ->
      by (by rewrite <- Hr).
    rewrite chroma_pure_shape1 by done. unfold chroma_pure.
    cbv zeta. cbn [fst].
    pose proof (chroma_pure_counts s0 (fold_left scan_pure qs scan0)) as Hc.
    cbv zeta in Hc. split; [by apply (normalize_shape _ _ Hc)|].
    intros j Hj. eapply normalize_columns; [exact Hc | lia].
  - injection Hr as -> ->. split; [done|]. unfold shape1. simpl. lia.
Qed.

(** The builder returns on a score whose qualifying elements have numeric
    attributes and positive durations. *)
Lemma meico_to_chroma_returns (elems : list element) :
  Forall well_formed (qualifying elems) ->
  (forall e u, e ∈ qualifying elems -> midi_dur e = Number u -> 0 < u) ->
  exists m idx, _meico_to_chroma elems = Ok (m, idx).
Proof.
  intros Hwf Hdur. set (qs := qualifying elems) in *.
  destruct (shortest_duration (fold_left scan_pure qs scan0)) as [s|] eqn:Es.
  - pose proof (scan_shortest_tick qs s Hwf Es) as [(e & u & He & Hu & Heq) _].
    specialize (Hdur e u He Hu).
    destruct (chroma_pure s (fold_left scan_pure qs scan0)) as [m idx] eqn:Er.
    exists m, idx. apply meico_to_chroma_Ok. split; [done|]. cbv zeta.
    fold qs. rewrite Es. split_and!; [lra| |done].
    rewrite py_int_nonneg.
    + apply (Qfloor_resp_le 0). apply Qdiv_nonneg; [|lra].
      by destruct (scan_highest qs) as (_ & ? & _).
    + apply Qdiv_nonneg; [|lra]. by destruct (scan_highest qs) as (_ & ? & _).
  - eexists _, _. apply meico_to_chroma_Ok. split; [done|]. cbv zeta.
    fold qs. by rewrite Es.
Qed.
End matrix_facts.

(** ** The score chromagram builder: indices and slices stay in range *)

Section range_facts.
Import Mei Spec.
Local Open Scope Q_scope.






End range_facts.

(** ** The builder on the sample scores *)

Section builder_samples.
Import Mei Spec Examples.
Local Open Scope Q_scope.

(** Case analysis on membership in an explicit list. *)
Ltac each_elem H :=
  repeat (apply elem_of_cons in H as [->|H]);
  [..|by apply elem_of_nil in H].

Lemma two_notes_ticks :
  qualifying two_notes <> []
  /\ shortest_duration_tick (qualifying two_notes) 2
  /\ highest_end_tick (qualifying two_notes) 5.
Proof.
  split; [done|]. change (qualifying two_notes) with two_notes. split.
  - split.
    + exists (mk_note "a" 60 0 2), 2. split_and!; [left | done | reflexivity].
    + intros e u He Hu. each_elem He; injection Hu as <-; lra.
  - split_and!; [|lra|].
    + right. exists (mk_note "b" 61 2 3), 2, 3.
      split_and!; [right; left | done | done | reflexivity].
    + intros e d u He Hd Hu.
      each_elem He; injection Hd as <-; injection Hu as <-; lra.
Qed.


Lemma chroma_columns_normalized_witness :
  exists m idx,
    _meico_to_chroma two_notes = Ok (m, idx)
    /\ length m = 12%nat
    /\ forall j : nat, (Z.of_nat j < shape1 m)%Z -> normalized (column j m).
Proof.
  eexists _, _. split; [vm_compute; reflexivity|].
  eapply (chroma_columns_normalized two_notes). vm_compute; reflexivity.
Defined.

(** C1, as stated, fails: when two C and one C sharp sound together, the
    row of C sharp holds one half, which is neither zero nor one. *)
Lemma chroma_rows_not_normalized :
  exists m idx,
    _meico_to_chroma chord = Ok (m, idx) /\ ~ Forall normalized m.
Proof.
  eexists _, _. split; [vm_compute; reflexivity|]. intros H.
  apply Forall_cons in H as [_ H]. apply Forall_cons in H as [H _].
  destruct H as [H|[H _]].
  - apply Forall_cons in H as [H _]. vm_compute in H. discriminate H.
  - apply Exists_cons in H as [H|H]; [|by apply Exists_nil in H].
    vm_compute in H. discriminate H.
Qed.






(** Outside the data model: when two elements carry the same identifier
    the dictionary has one entry for both, that of the later element. *)
Lemma same_id_one_entry :
  exists m, _meico_to_chroma same_id = Ok (m, [(Some "a"%string, 1%Z)]).
Proof. eexists. vm_compute. reflexivity. Qed.

End builder_samples.

(** ** Measure lookup *)

Section measure_lookup.
Import Mei Spec.

Lemma item_key {V} (d : Py.dict string V) (k : string) :
  k ∈ Py.keys d -> exists v, Py.get d k = Some v /\ Py.item d k = Ok v.
Proof.
  intros Hk. unfold Py.item. destruct (Py.get d k) as [v|] eqn:E.
  - by exists v.
  - by apply get_None in E.
Qed.

(** One round of the loop appends the entry of the key, or prints its
    warning. *)
Lemma lookup_measure_step (output_json : Py.dict string Q) mei_tree
    result printed key :
  key ∈ Py.keys output_json ->
  lookup_measure output_json mei_tree (result, printed) key
  = Ok (result ++ option_list (entry_for output_json mei_tree key),
        printed ++ option_list (warning_for mei_tree key)).
Proof.
  intros (ts & Hget & Hitem)%item_key.
  unfold lookup_measure, entry_for, warning_for. rewrite Hget, Hitem.
  destruct (xpath_measures key mei_tree) as [|m ms]; simpl.
  - by rewrite app_nil_r.
  - destruct (xml_n m), (xml_xmlid m); simpl; by rewrite app_nil_r.
Qed.

Lemma lookup_measure_loop (output_json : Py.dict string Q) mei_tree
    keys result printed :
  keys ⊆ Py.keys output_json ->
  Py.for_each (lookup_measure output_json mei_tree) keys (result, printed)
  = Ok (result ++ omap (entry_for output_json mei_tree) keys,
        printed ++ omap (warning_for mei_tree) keys).
Proof.
  revert result printed.
  induction keys as [|key keys IH]; intros result printed Hsub;
    cbn [Py.for_each omap list_omap].
  - by rewrite !app_nil_r.
  - rewrite lookup_measure_step by (apply Hsub; left). cbn [Py.bind].
    rewrite IH by (intros k Hk; apply Hsub; by right).
    rewrite <- !app_assoc. do 2 f_equal.
    + by destruct (entry_for _ _ _).
    + by destruct (warning_for _ _).
Qed.

(** C4, as the code has it. The measure lookup never raises. It goes
    through the keys of the timestamp map in order; a key is dropped, with
    one warning, exactly when the XPath finds no enclosing measure or the
    first measure found lacks the number or lacks the identifier (one of
    the two missing is enough); every other key gives one entry, made of
    the number and identifier of that measure and the timestamp of the
    key, and no warning. *)
Theorem measure_lookup_drops (output_json : Py.dict string Q) (mei_tree : xml) :
  get_measure_timestamps output_json mei_tree
  = Ok (omap (entry_for output_json mei_tree) (Py.keys output_json),
        omap (warning_for mei_tree) (Py.keys output_json))
  /\ forall key, key ∈ Py.keys output_json ->
       (entry_for output_json mei_tree key = None
        <-> xpath_measures key mei_tree = []
            \/ exists m ms, xpath_measures key mei_tree = m :: ms
                            /\ (xml_n m = None \/ xml_xmlid m = None))
       /\ (entry_for output_json mei_tree key = None
           <-> is_Some (warning_for mei_tree key))
       /\ (forall m ms number mid,
             xpath_measures key mei_tree = m :: ms ->
             xml_n m = Some number -> xml_xmlid m = Some mid ->
             exists ts, Py.get output_json key = Some ts
               /\ entry_for output_json mei_tree key
                  = Some {| measure_number := number; measure_id := mid;
                            timestamp_sec := ts |}).
Proof.
  split.
  - unfold get_measure_timestamps. by rewrite lookup_measure_loop.
  - intros key (ts & Hget & _)%item_key.
    unfold entry_for, warning_for. rewrite Hget.
    destruct (xpath_measures key mei_tree) as [|m ms] eqn:Ex.
    + split_and!; [split; [by left | done] | split; [by eexists | done] |].
      intros ? ? ? ? [=].
    + destruct (xml_n m) as [number|] eqn:En, (xml_xmlid m) as [mid|] eqn:Ei.
      * split_and!.
        -- split; [done|]. intros [[=]|(m' & ms' & [= <- <-] & [H|H])]; congruence.
        -- split; [done | by intros [? [=]]].
        -- intros ? ? ? ? [= <- <-] ? ?. exists ts. split; [done|]. congruence.
      * split_and!.
        -- split; [|done]. intros _. right. exists m, ms. split; [done | by right].
        -- split; [by eexists | done].
        -- intros ? ? ? ? [= <- <-] ? ?. congruence.
      * split_and!.
        -- split; [|done]. intros _. right. exists m, ms. split; [done | by left].
        -- split; [by eexists | done].
        -- intros ? ? ? ? [= <- <-] ? ?. congruence.
      * split_and!.
        -- split; [|done]. intros _. right. exists m, ms. split; [done | by left].
        -- split; [by eexists | done].
        -- intros ? ? ? ? [= <- <-] ? ?. congruence.
Qed.

(** C4, as stated, fails: the second measure of the sample score has a
    number and no identifier, so it does not lack both, and the entry of
    the note in it is dropped all the same. *)
Lemma measure_with_number_dropped :
  exists m,
    xpath_measures "b" Examples.score = [m]
    /\ ~ (xml_n m = None /\ xml_xmlid m = None)
    /\ get_measure_timestamps [("b"%string, 2%Q)] Examples.score
       = Ok ([], [NoNumberOrId "b"]).
Proof.
  eexists. split; [vm_compute; reflexivity|]. split; [|reflexivity].
  intros [H _]. discriminate H.
Qed.
End measure_lookup.

(** ** Sorting *)

Lemma Sorted_lookup {A} (R : A -> A -> Prop) (l : list A) i x y :
  Sorted R l -> l !! i = Some x -> l !! S i = Some y -> R x y.
Proof.
  intros Hs. revert i. induction Hs as [|a l Hl IH Hhd]; intros i; [done|].
  destruct i as [|i]; simpl.
  - intros [= ->] Hy. destruct l as [|b l]; [done|]. injection Hy as ->.
    by apply HdRel_inv in Hhd.
  - apply IH.
Qed.

Lemma map_each_Ok {A B} (f : A -> Py.result B) (xs : list A) (ys : list B) :
  Py.map_each f xs = Ok ys <-> Forall2 (fun x y => f x = Ok y) xs ys.
Proof.
  revert ys. induction xs as [|x xs IH]; intros ys; simpl.
  - split; [intros [= <-]; constructor | by intros ->%Forall2_nil_inv_l].
  - split.
    + destruct (f x) as [y|] eqn:E; simpl; [|done].
      destruct (Py.map_each f xs) as [ys'|] eqn:E'; simpl; [|done].
      intros [= <-]. constructor; [done|]. by apply IH.
    + intros (y & ys' & Hy & Hys & ->)%Forall2_cons_inv_l.
      rewrite Hy. simpl. apply IH in Hys. by rewrite Hys.
Qed.

Section sorted_facts.
Context {X Kt : Type} (key : X -> Py.result Kt) (lt : Kt -> Kt -> bool).
Hypothesis lt_asym : forall a b, lt a b = true -> lt b a = false.

Implicit Types (l keyed : list (Kt * X)) (xs out : list X).

#[local] Abbreviation before := (Py.before lt).

Lemma insert_perm (x : Kt * X) l : Py.insert lt x l ≡ₚ x :: l.
Proof.
  induction l as [|y l IH]; simpl; [done|].
  destruct (lt y.1 x.1); [|done]. rewrite IH. apply Permutation_swap.
Qed.

Lemma sort_keyed_perm l : Py.sort_keyed lt l ≡ₚ l.
Proof.
  induction l as [|x l IH]; simpl; [done|].
  rewrite insert_perm. by rewrite IH.
Qed.

Lemma insert_HdRel (y x : Kt * X) l :
  before y x -> HdRel before y l -> HdRel before y (Py.insert lt x l).
Proof.
  intros Hyx Hyl. destruct l as [|z l]; simpl; [by constructor|].
  destruct (lt z.1 x.1); constructor; [|done].
  by apply HdRel_inv in Hyl.
Qed.

Lemma insert_Sorted (x : Kt * X) l :
  Sorted before l -> Sorted before (Py.insert lt x l).
Proof.
  induction 1 as [|y l Hl IH Hhd]; simpl.
  - by repeat constructor.
  - destruct (lt y.1 x.1) eqn:E.
    + constructor; [done|]. apply insert_HdRel; [|done].
      by apply lt_asym.
    + constructor; [by constructor|]. by constructor.
Qed.

Lemma sort_keyed_Sorted l : Sorted before (Py.sort_keyed lt l).
Proof.
  induction l as [|x l IH]; simpl; [constructor|]. by apply insert_Sorted.
Qed.

(** [sorted] returns a rearrangement of its argument in which every item
    may stand before the next one. *)
Lemma sorted_Ok xs out :
  Py.sorted key lt xs = Ok out ->
  out ≡ₚ xs
  /\ forall i x y, out !! i = Some x -> out !! S i = Some y ->
       exists kx ky, key x = Ok kx /\ key y = Ok ky /\ lt ky kx = false.
Proof.
  unfold Py.sorted.
  destruct (Py.map_each _ xs) as [keyed|] eqn:E; simpl; [|done].
  intros [= <-]. apply map_each_Ok in E.
  assert (Hkeyed : Forall (fun kx => key kx.2 = Ok kx.1) keyed /\ keyed.*2 = xs).
  { clear -E. induction E as [|x kx xs keyed Hx _ [IH1 IH2]]; [done|].
    destruct (key x) as [k|] eqn:Ek; simpl in Hx; [|done].
    injection Hx as <-. split; [by constructor|].
    rewrite fmap_cons. by f_equal. }
  destruct Hkeyed as [Hkeys Hxs]. split.
  - rewrite <- Hxs. apply fmap_Permutation, sort_keyed_perm.
  - intros i x y. rewrite !list_lookup_fmap.
    destruct (Py.sort_keyed lt keyed !! i) as [[kx x']|] eqn:Ei; [|done].
    destruct (Py.sort_keyed lt keyed !! S i) as [[ky y']|] eqn:Ej; [|done].
    simpl. intros [= ->] [= ->].
    pose proof (Sorted_lookup _ _ _ _ _ (sort_keyed_Sorted keyed) Ei Ej) as Hb.
    assert (Hin : forall p, p ∈ Py.sort_keyed lt keyed -> key p.2 = Ok p.1).
    { intros p Hp. rewrite sort_keyed_perm in Hp.
      rewrite Forall_forall in Hkeys. auto. }
    exists kx, ky. split_and!; [| |exact Hb].
    + apply (Hin (kx, x)). by eapply list_elem_of_lookup_2.
    + apply (Hin (ky, y)). by eapply list_elem_of_lookup_2.
Qed.

End sorted_facts.

(** ** Measure reduction *)

Section reduction_facts.
Import Mei Spec.
Local Open Scope Q_scope.

Lemma tuple_lt_asym (a b : Z * Q) :
  Py.tuple_lt a b = true -> Py.tuple_lt b a = false.
Proof.
  unfold Py.tuple_lt. rewrite (Z.eqb_sym b.1 a.1).
  destruct (a.1 =? b.1)%Z eqn:E.
  - rewrite Qlt_bool_true, Qlt_bool_false. lra.
  - rewrite Z.ltb_lt, Z.ltb_ge. lia.
Qed.

Lemma tuple_lt_false (a b : Z * Q) :
  Py.tuple_lt b a = false ->
  (a.1 < b.1)%Z \/ (a.1 = b.1 /\ a.2 <= b.2).
Proof.
  unfold Py.tuple_lt. destruct (b.1 =? a.1)%Z eqn:E.
  - apply Z.eqb_eq in E. rewrite Qlt_bool_false. intros H. right. done.
  - apply Z.eqb_neq in E. rewrite Z.ltb_ge. intros H. left. lia.
Qed.

Lemma keep_earliest_step ls seen line :
  earliest ls seen -> earliest (ls ++ [line]) (keep_earliest seen line).
Proof.
  intros (Hnd & Hval & Hmin). unfold keep_earliest.
  assert (Hset : earliest (ls ++ [line]) (Py.set seen (measure_id line) line)
                 \/ ~ (forall old, Py.get seen (measure_id line) = Some old ->
                         timestamp_sec line < timestamp_sec old)).
  { destruct (Py.get seen (measure_id line)) as [old|] eqn:Eold.
    - destruct (Qlt_le_dec (timestamp_sec line) (timestamp_sec old)) as [Hlt|Hle].
      + left. split_and!.
        * by apply NoDup_keys_set.
        * intros k v [Hin| [= -> ->]]%elem_set; [|split; [done | elem_snoc]].
          destruct (Hval k v Hin). split; [done | elem_snoc].
        * intros e [He| ->]%elem_of_snoc.
          -- destruct (Hmin e He) as (v & Hv & Hle).
             destruct (decide (measure_id line = measure_id e)) as [Heq|Hne].
             ++ rewrite <- Heq, get_set_eq. exists line. split; [done|].
                rewrite <- Heq, Eold in Hv. injection Hv as <-. lra.
             ++ rewrite get_set_ne by done. by exists v.
          -- rewrite get_set_eq. exists line. split; [done | lra].
      + right. intros H. specialize (H old eq_refl). lra.
    - left. split_and!.
      + by apply NoDup_keys_set.
      + intros k v [Hin| [= -> ->]]%elem_set; [|split; [done | elem_snoc]].
        destruct (Hval k v Hin). split; [done | elem_snoc].
      + intros e [He| ->]%elem_of_snoc.
        * destruct (Hmin e He) as (v & Hv & Hle).
          destruct (decide (measure_id line = measure_id e)) as [Heq|Hne].
          -- rewrite <- Heq, Eold in Hv. done.
          -- rewrite get_set_ne by done. by exists v.
        * rewrite get_set_eq. exists line. split; [done | lra]. }
  destruct (Py.get seen (measure_id line)) as [old|] eqn:Eold.
  - destruct (Py.Qlt_bool _ _) eqn:E.
    + apply Qlt_bool_true in E. destruct Hset as [?|Hno]; [done|].
      destruct Hno. by intros ? [= <-].
    + apply Qlt_bool_false in E. split_and!; [done| |].
      * intros k v Hin. destruct (Hval k v Hin). split; [done | elem_snoc].
      * intros e [He| ->]%elem_of_snoc; [auto|]. by exists old.
  - destruct Hset as [?|Hno]; [done|]. destruct Hno. intros ? [=].
Qed.

Lemma keep_earliest_loop ls :
  earliest ls (fold_left keep_earliest ls []).
Proof.
  induction ls as [|line ls IH] using rev_ind.
  - split_and!; [constructor | by intros ? ? ?%elem_of_nil | by intros ? ?%elem_of_nil].
  - rewrite fold_left_app. simpl. by apply keep_earliest_step.
Qed.

Lemma earliest_ids ls seen :
  earliest ls seen -> measure_id <$> Py.values seen = Py.keys seen.
Proof.
  intros (_ & Hval & _). unfold Py.values, Py.keys.
  induction seen as [|[k v] seen IH]; [done|]. rewrite !fmap_cons. f_equal.
  - apply (Hval k v). left.
  - apply IH. intros k' v' H. apply Hval. by right.
Qed.

(** C6. When the reduction returns, its result has one entry per measure
    identifier of the input; every entry of the result is an entry of the
    input; and for every entry of the input, the entry retained for its
    measure has a timestamp that is not larger. *)
Theorem reduction_keeps_earliest (measure_timestamps out : list MeasureEntry) :
  filter_measures_by_tstamp measure_timestamps = Ok out ->
  NoDup (measure_id <$> out)
  /\ (forall o, o ∈ out -> o ∈ measure_timestamps)
  /\ (forall e, e ∈ measure_timestamps ->
        exists o, o ∈ out /\ measure_id o = measure_id e
                  /\ timestamp_sec o <= timestamp_sec e).
Proof.
  unfold filter_measures_by_tstamp.
  intros [Hperm _]%(sorted_Ok _ _ tuple_lt_asym).
  pose proof (keep_earliest_loop measure_timestamps) as Hinv.
  set (seen := fold_left keep_earliest measure_timestamps []) in *.
  pose proof (earliest_ids _ _ Hinv) as Hids.
  destruct Hinv as (Hnd & Hval & Hmin). split_and!.
  - rewrite Hperm, Hids. done.
  - intros o Ho. rewrite Hperm in Ho.
    apply list_elem_of_fmap in Ho as ([k v] & -> & Hin).
    by apply (Hval k v).
  - intros e He. destruct (Hmin e He) as (v & Hv & Hle).
    apply get_Some_elem in Hv. exists v. split_and!; [|by apply (Hval _ v)|done].
    rewrite Hperm. apply list_elem_of_fmap. by exists (measure_id e, v).
Qed.

(** C7. When the aggregator returns its list, every entry and the next
    one are in order: the measure numbers, read as integers, do not
    decrease, and where they are equal the timestamps do not decrease. *)
Theorem reduction_sorted (measure_timestamps out : list MeasureEntry) :
  filter_measures_by_tstamp measure_timestamps = Ok out ->
  forall i x y, out !! i = Some x -> out !! S i = Some y -> ordered x y.
Proof.
  unfold filter_measures_by_tstamp.
  intros [_ Hadj]%(sorted_Ok _ _ tuple_lt_asym) i x y Hx Hy.
  destruct (Hadj i x y Hx Hy) as ([kx tx] & [ky ty] & Hkx & Hky & Hlt).
  unfold sort_key in Hkx, Hky.
  destruct (Py.int_of_str (measure_number x)) as [nx|] eqn:Ex; [|done].
  destruct (Py.int_of_str (measure_number y)) as [ny|] eqn:Ey; [|done].
  simpl in Hkx, Hky. injection Hkx as <- <-. injection Hky as <- <-.
  exists nx, ny. split_and!; [done | done |].
  by apply (tuple_lt_false (nx, _) (ny, _)).
Qed.

End reduction_facts.

(** ** The timestamp dictionary *)

Section timestamp_facts.
Import Spec.
Local Open Scope Q_scope.

Lemma set_set {K V} `{EqDecision K} (d : Py.dict K V) k v v' :
  Py.set (Py.set d k v) k v' = Py.set d k v'.
Proof.
  induction d as [|[k0 v0] d IH]; simpl.
  - by rewrite decide_True.
  - destruct (decide (k0 = k)) as [->|Hne]; simpl.
    + by rewrite decide_True.
    + rewrite decide_False by done. by rewrite IH.
Qed.

(** One round of the loop of step 4. *)
Lemma time_of_step pd (idx : Py.dict (option string) Z) cl trim t id col :
  Py.get idx id = Some col ->
  Main.time_of pd idx cl trim t id
  = match Py.get pd col with
    | Some _ => Ok (Py.set t id (time_seconds pd cl trim col))
    | None => Err Py.KeyError
    end.
Proof.
  intros Hcol. unfold Main.time_of, Py.item, time_seconds. rewrite Hcol. simpl.
  destruct (Py.get pd col) as [a|]; simpl; [|done].
  rewrite get_set_eq. simpl. by rewrite set_set.
Qed.

Lemma time_of_loop_Ok pd (idx : Py.dict (option string) Z) cl trim ids t :
  (forall id, id ∈ ids ->
     exists col, Py.get idx id = Some col /\ is_Some (Py.get pd col)) ->
  Py.for_each (Main.time_of pd idx cl trim) ids t
  = Ok (fold_left (fun d kv => Py.set d kv.1 kv.2)
          ((fun id => (id, time_seconds pd cl trim (default 0%Z (Py.get idx id))))
             <$> ids) t).
Proof.
  revert t. induction ids as [|id ids IH]; intros t Hall; [done|].
  destruct (Hall id) as (col & Hcol & [a Ha]); [left|].
  cbn [Py.for_each]. rewrite (time_of_step _ _ _ _ _ _ col Hcol), Ha.
  cbn [Py.bind]. rewrite IH by (intros; apply Hall; by right).
  rewrite fmap_cons. cbn [fold_left fst snd]. by rewrite Hcol.
Qed.

Lemma time_of_loop_Err pd (idx : Py.dict (option string) Z) cl trim ids t :
  ids ⊆ Py.keys idx ->
  (exists id col, id ∈ ids /\ Py.get idx id = Some col /\ Py.get pd col = None) ->
  Py.for_each (Main.time_of pd idx cl trim) ids t = Err Py.KeyError.
Proof.
  revert t. induction ids as [|id ids IH]; intros t Hsub (bad & bcol & Hin & Hb & Hnone).
  - by apply elem_of_nil in Hin.
  - cbn [Py.for_each].
    destruct (Py.get idx id) as [col|] eqn:Hcol.
    + rewrite (time_of_step _ _ _ _ _ _ col Hcol).
      destruct (Py.get pd col) as [a|] eqn:Ha; [|done]. cbn [Py.bind].
      apply IH; [intros k Hk; apply Hsub; by right|].
      exists bad, bcol. split_and!; [|done|done].
      apply elem_of_cons in Hin as [->|?]; [congruence | done].
    + apply get_None in Hcol. destruct Hcol. apply Hsub. left.
Qed.

(** C8. With a non-zero sample rate and a non-zero number of audio
    columns: when the score column of every identifier is in the path
    dictionary, step 4 returns a dictionary over the same identifiers that
    gives each one [audio_column * ((sample_count / sample_rate) /
    audio_column_count) + trim_start / 1000]; when the score column of
    some identifier is missing from the path dictionary, the step fails
    with the lookup error ([KeyError], the unmapped-column error of the
    specification). *)
Theorem timestamps_from_path (audio_len : Z) (frame_rate : Q) (columns : Z)
    (trim_start : Q) (pd : Py.dict Z Z) (idx : Py.dict (option string) Z) :
  ~ frame_rate == 0 -> columns <> 0%Z -> NoDup (Py.keys idx) ->
  ((forall id col, Py.get idx id = Some col -> is_Some (Py.get pd col)) ->
   exists t,
     Main.id_to_time audio_len frame_rate columns trim_start pd idx = Ok t
     /\ Py.keys t = Py.keys idx
     /\ forall id col a,
          Py.get idx id = Some col -> Py.get pd col = Some a ->
          Py.get t id
          = Some (inject_Z a
                  * (inject_Z audio_len / frame_rate / inject_Z columns)
                  + trim_start / 1000))
  /\ ((exists id col, Py.get idx id = Some col /\ Py.get pd col = None) ->
      Main.id_to_time audio_len frame_rate columns trim_start pd idx
      = Err Py.KeyError).
Proof.
  intros Hrate Hcols Hnd. unfold Main.id_to_time.
  rewrite (proj2 (py_div_Ok _ frame_rate _) (conj Hrate eq_refl)). simpl.
  assert (Hc : ~ inject_Z columns == 0).
  { intros H. apply Hcols. by apply (inject_Z_injective columns 0). }
  rewrite (proj2 (py_div_Ok _ (inject_Z columns) _) (conj Hc eq_refl)). simpl.
  set (cl := inject_Z audio_len / frame_rate / inject_Z columns).
  split.
  - intros Hall. eexists. split; [apply time_of_loop_Ok|].
    + intros id Hid. destruct (Py.get idx id) as [col|] eqn:Hcol.
      * exists col. split; [done | by eapply Hall].
      * by apply get_None in Hcol.
    + set (pairs := (fun id => (id, _)) <$> Py.keys idx).
      assert (Hkeys : pairs.*1 = Py.keys idx).
      { unfold pairs. rewrite <- list_fmap_compose. apply list_fmap_id. }
      rewrite fold_set_fresh by (simpl; by rewrite Hkeys). simpl.
      split; [exact Hkeys|]. intros id col a Hcol Ha.
      apply elem_get; [unfold Py.keys; by rewrite Hkeys|].
      apply list_elem_of_fmap. exists id. split.
      * rewrite Hcol. simpl. unfold time_seconds. by rewrite Ha.
      * apply get_Some_elem in Hcol. apply list_elem_of_fmap.
        by exists (id, col).
  - intros (id & col & Hcol & Hnone). apply time_of_loop_Err; [done|].
    exists id, col. split_and!; [|done|done].
    apply get_Some_elem in Hcol. apply list_elem_of_fmap. by exists (id, col).
Qed.
End timestamp_facts.

(** ** The later stages on the samples *)

Section stage_samples.
Import Mei Spec Examples.
Local Open Scope Q_scope.

Lemma path_dict_last_wins_witness :
  Py.get (Main.path_dict warp_path) 1%Z = Some 2%Z.
Proof.
  apply (proj2 (path_dict_last_wins warp_path 1) [(1, 3)%Z] 2%Z [(0, 0)%Z]).
  - reflexivity.
  - apply (bool_decide_unpack _). vm_compute. exact I.
Defined.

Lemma measure_lookup_drops_witness :
  get_measure_timestamps timestamps score
  = Ok ([mk_entry "1" "m1" 1], [NoNumberOrId "b"; NoMeasureFound "c"])
  /\ (entry_for timestamps score "b" = None
      <-> xpath_measures "b" score = []
          \/ exists m ms, xpath_measures "b" score = m :: ms
                          /\ (xml_n m = None \/ xml_xmlid m = None)).
Proof.
  destruct (measure_lookup_drops timestamps score) as [Hrun Hkeys]. split.
  - exact Hrun.
  - apply (Hkeys "b"%string). apply (bool_decide_unpack _). vm_compute. exact I.
Defined.

Lemma reduction_keeps_earliest_witness :
  exists out,
    filter_measures_by_tstamp entries = Ok out
    /\ NoDup (measure_id <$> out)
    /\ (forall o, o ∈ out -> o ∈ entries)
    /\ (forall e, e ∈ entries ->
          exists o, o ∈ out /\ measure_id o = measure_id e
                    /\ timestamp_sec o <= timestamp_sec e).
Proof.
  eexists. split; [vm_compute; reflexivity|].
  apply (reduction_keeps_earliest entries). vm_compute; reflexivity.
Defined.

Lemma reduction_sorted_witness :
  exists out,
    filter_measures_by_tstamp entries = Ok out
    /\ out = [mk_entry "1" "m1" 0; mk_entry "2" "m2" 7; mk_entry "10" "m10" 3]
    /\ forall i x y, out !! i = Some x -> out !! S i = Some y -> ordered x y.
Proof.
  eexists. split; [vm_compute; reflexivity|]. split; [reflexivity|].
  apply (reduction_sorted entries). vm_compute; reflexivity.
Defined.

Lemma timestamps_from_path_witness :
  exists t,
    Main.id_to_time 100 10 5 500 (Main.path_dict warp_path) indices = Ok t
    /\ Py.keys t = Py.keys indices
    /\ forall id col a,
         Py.get indices id = Some col ->
         Py.get (Main.path_dict warp_path) col = Some a ->
         Py.get t id = Some (inject_Z a * (inject_Z 100 / 10 / inject_Z 5)
                             + 500 / 1000).
Proof.
  apply (timestamps_from_path 100 10 5 500 (Main.path_dict warp_path) indices).
  - intros H. discriminate H.
  - discriminate.
  - apply (bool_decide_unpack _). vm_compute. exact I.
  - intros id col Hget.
    apply get_Some_elem in Hget.
    repeat (apply elem_of_cons in Hget as [Hget|Hget]);
      [injection Hget as -> ->; by eexists..|by apply elem_of_nil in Hget].
Defined.
End stage_samples.

(** * Further properties *)

(** ** The builder: when it raises *)

Section builder_errors.
Import Mei Spec.
Local Open Scope Q_scope.





End builder_errors.

(** ** The builder: the cells of the matrix *)

Section cell_facts.
Import Mei Spec.
Local Open Scope Q_scope.

Lemma cell_lookup (m : matrix) (r j : nat) (row : list Q) (x : Q) :
  m !! r = Some row -> row !! j = Some x -> cell m r j = x.
Proof.
  intros Hr Hj. unfold cell. rewrite (nth_lookup_Some _ _ _ _ Hr).
  by apply nth_lookup_Some.
Qed.

(** A matrix of counts has a cell at every position. *)
Lemma counts_cell (w : nat) (m : matrix) (r j : nat) :
  counts w m -> (r < 12)%nat -> (j < w)%nat ->
  exists row, m !! r = Some row /\ length row = w
              /\ row !! j = Some (cell m r j) /\ count (cell m r j).
Proof.
  intros [H12 Hrows] Hr Hj.
  destruct (lookup_lt_is_Some_2 m r) as [row Hrow]; [lia|].
  destruct (Forall_lookup_1 _ _ _ _ Hrows Hrow) as [Hlen Hc].
  destruct (lookup_lt_is_Some_2 row j) as [x Hx]; [lia|].
  exists row. rewrite (cell_lookup _ _ _ _ _ Hrow Hx).
  split_and!; [done | done | done |]. by eapply Forall_lookup_1.
Qed.

(** A property of all cells is a property of the rows. *)
Lemma cells_Forall (P : Q -> Prop) (w : nat) (m : matrix) :
  length m = 12%nat -> Forall (fun row => length row = w) m ->
  (forall r j, (r < 12)%nat -> (j < w)%nat -> P (cell m r j)) ->
  Forall (Forall P) m.
Proof.
  intros H12 Hrows Hall. apply Forall_lookup_2. intros r row Hrow.
  apply Forall_lookup_2. intros j x Hx.
  rewrite <- (cell_lookup _ _ _ _ _ Hrow Hx). apply Hall.
  - apply lookup_lt_Some in Hrow. lia.
  - apply lookup_lt_Some in Hx.
    by rewrite <- (Forall_lookup_1 _ _ _ _ Hrows Hrow).
Qed.

(** [m[p, b:e] += 1] on one cell. *)
Lemma cell_add_row_slice (w : nat) (m : matrix) (p b e : Z) (r j : nat) :
  counts w m -> (r < 12)%nat -> (j < w)%nat ->
  cell (add_row_slice m p b e) r j
  = if bool_decide (Z.to_nat p = r) && Py.in_slice (Z.of_nat w) b e j
    then cell m r j + 1 else cell m r j.
Proof.
  intros Hm Hr Hj. destruct (counts_cell w m r j Hm Hr Hj) as (row & Hrow & Hlen & Hx & _).
  unfold add_row_slice. destruct (decide (Z.to_nat p = r)) as [Heq|Hne].
  - rewrite (bool_decide_eq_true_2 _ Heq). simpl.
    apply (cell_lookup _ _ _ (add_slice b e row)).
    + by rewrite Heq, list_lookup_alter_eq, Hrow.
    + unfold add_slice. by rewrite list_lookup_imap, Hx, Hlen.
  - rewrite (bool_decide_eq_false_2 _ Hne). simpl.
    apply (cell_lookup _ _ _ row); [|done].
    by rewrite list_lookup_alter_ne.
Qed.

(** The second loop counts, in every cell, the stored notes that cover
    it. *)
Lemma place_cell (s : Q) (w : nat) d st (r j : nat) :
  counts w st.1 -> (r < 12)%nat -> (j < w)%nat ->
  cell (fold_left (place_pure s) d st).1 r j
  == cell st.1 r j
     + inject_Z (Z.of_nat (length
         (filter (fun kv => covers s (Z.of_nat w) r j kv.2 = true) d))).
Proof.
  intros Hst Hr Hj. revert st Hst.
  induction d as [|kv d IH]; intros st Hst.
  - cbn [fold_left]. rewrite filter_nil. cbn [length].
    change (inject_Z (Z.of_nat 0)) with 0. ring.
  - cbn [fold_left]. rewrite IH.
    2:{ unfold place_pure. cbn [fst]. destruct (pitch kv.2); [|done].
        by apply add_row_slice_counts. }
    rewrite filter_cons. unfold place_pure at 1. cbn [fst].
    assert (Hw : shape1 st.1 = Z.of_nat w).
    { destruct Hst as [H12 Hrows]. apply rows_shape1; [done|].
      eapply Forall_impl; [exact Hrows | by intros ? [? _]]. }
    destruct (pitch kv.2) as [p|] eqn:Ep.
    + rewrite (cell_add_row_slice w) by done. rewrite Hw.
      assert (Hcov : covers s (Z.of_nat w) r j kv.2
                     = bool_decide (Z.to_nat (p mod 12) = r)
                       && Py.in_slice (Z.of_nat w) (begin_of s kv.2)
                                      (end_of s (Z.of_nat w) kv.2) j)
        by (unfold covers; by rewrite Ep).
      rewrite <- Hcov. destruct (covers s (Z.of_nat w) r j kv.2).
      * rewrite decide_True by done. cbn [length].
        rewrite Nat2Z.inj_succ, <- Z.add_1_l, inject_Z_plus.
        change (inject_Z 1) with 1. ring.
      * rewrite decide_False by done. reflexivity.
    + assert (Hcov : covers s (Z.of_nat w) r j kv.2 = false)
        by (unfold covers; by rewrite Ep).
      rewrite Hcov. rewrite decide_False by done. reflexivity.
Qed.

Lemma cell_zeros (w r j : nat) :
  (r < 12)%nat -> (j < w)%nat -> cell (replicate 12 (replicate w 0)) r j = 0.
Proof.
  intros Hr Hj. apply (cell_lookup _ _ _ (replicate w 0)).
  - by apply lookup_replicate_2.
  - by apply lookup_replicate_2.
Qed.

(** A cell after normalization: the count divided by a positive number that
    is at least the count. *)
Lemma normalize_cell (w : nat) (m : matrix) (r j : nat) :
  counts w m -> (r < 12)%nat -> (j < w)%nat ->
  exists l, 0 < l /\ cell (normalize m) r j = cell m r j / l
            /\ (cell m r j <= l \/ cell m r j == 0).
Proof.
  intros Hm Hr Hj.
  destruct (counts_cell w m r j Hm Hr Hj) as (row & Hrow & Hlen & Hx & Hc).
  destruct Hm as [H12 Hrows].
  assert (Hlens : Forall (fun row => length row = w) m).
  { eapply Forall_impl; [exact Hrows | by intros ? [? _]]. }
  assert (Hhd : length (hd [] m) = w).
  { destruct m as [|r0 m]; [done|]. by apply Forall_cons in Hlens as [? _]. }
  destruct (column_norms_spec w m Hlens) as [Hnl Hn].
  destruct (lookup_lt_is_Some_2
              (foldr (fun row acc => zip_with Py.max acc (Qabs <$> row))
                     (replicate w 0) m) j) as [l Hl]; [lia|].
  destruct (Hn j l Hl) as [Hub _].
  destruct (Hub row) as (x & Hx' & Hle); [by eapply list_elem_of_lookup_2|].
  rewrite Hx in Hx'. injection Hx' as <-.
  set (fix_ := fun l : Q => if Py.Qlt_bool l tiny then 1 else l).
  exists (fix_ l).
  assert (Hcell : cell (normalize m) r j = cell m r j / fix_ l).
  { apply (cell_lookup _ _ _
             (zip_with Qdiv row (fix_ <$> column_norms m))).
    - unfold normalize. by rewrite list_lookup_fmap, Hrow.
    - apply lookup_zip_with_Some. exists (cell m r j), (fix_ l).
      split_and!; [done | done |].
      unfold column_norms. by rewrite Hhd, list_lookup_fmap, Hl. }
  unfold fix_ in *. destruct (Py.Qlt_bool l tiny) eqn:E.
  - apply Qlt_bool_true in E. split_and!; [lra | done |]. right.
    apply count_small; [done | lra].
  - apply Qlt_bool_false in E. unfold tiny in E. split_and!; [lra | done |].
    left. pose proof (Qle_Qabs (cell m r j)). lra.
Qed.
End cell_facts.

(** ** The builder: what the returned matrix holds *)

Lemma filter_none {A} (P : A -> Prop) `{forall x, Decision (P x)} (l : list A) :
  (forall x, x ∈ l -> ~ P x) -> filter P l = [].
Proof.
  induction l as [|x l IH]; intros Hall; [done|].
  rewrite filter_cons, decide_False by (apply Hall; left).
  apply IH. intros y Hy. apply Hall. by right.
Qed.

Section matrix_contents.
Import Mei Spec.
Local Open Scope Q_scope.

(** The matrix the builder returns is the empty one on a score without
    qualifying elements, and otherwise the normalization of a matrix of
    counts: the count of a cell is the number of stored notes covering
    it. *)
Lemma builder_result (elems : list element) m idx :
  _meico_to_chroma elems = Ok (m, idx) ->
  let st := fold_left scan_pure (qualifying elems) scan0 in
  Forall well_formed (qualifying elems)
  /\ ((qualifying elems = [] /\ m = replicate 12 [] /\ idx = [])
      \/ exists s0 (w : nat) (M : matrix),
           shortest_duration st = Some s0 /\ ~ s0 == 0
           /\ shape1 m = Z.of_nat w /\ counts w M /\ m = normalize M
           /\ idx = (chroma_pure s0 st).2
           /\ forall r j, (r < 12)%nat -> (j < w)%nat ->
                cell M r j
                == inject_Z (Z.of_nat (length
                     (filter (fun kv => covers s0 (Z.of_nat w) r j kv.2 = true)
                             (notes_and_rests st))))).
Proof.
  intros Hok st. apply meico_to_chroma_Ok in Hok as [Hwf Hr]. cbv zeta in Hr.
  fold st in Hr. split; [done|].
  pose proof (scan_shortest (qualifying elems)) as Hsh. fold st in Hsh.
  destruct (shortest_duration st) as [s0|] eqn:Es.
  - right. destruct Hr as (Hs0 & Hw & Hr).
    set (w := Z.to_nat (Py.int (highest_date st / s0))).
    pose proof (chroma_pure_counts s0 st) as Hc. cbv zeta in Hc. fold w in Hc.
    exists s0, w, (fold_left (place_pure s0) (notes_and_rests st)
                             (replicate 12 (replicate w 0), [])).1.
    assert (Hm : m = (chroma_pure s0 st).1) by (by rewrite <- Hr).
    split_and!; [done | done | | done | | by rewrite <- Hr |].
    + rewrite Hm, chroma_pure_shape1 by done. unfold w. lia.
    + rewrite Hm. reflexivity.
    + intros r j Hr' Hj. rewrite (place_cell s0 w) by (done || apply replicate_counts).
      cbn [fst]. rewrite cell_zeros by done. apply Qplus_0_l.
  - left. by injection Hr as -> ->.
Qed.

(** The stored notes come from qualifying elements. *)
Lemma notes_origin (qs : list element) k nr :
  (k, nr) ∈ notes_and_rests (fold_left scan_pure qs scan0) ->
  exists e, e ∈ qs /\ k = xml_id e /\ nr = data_of e.
Proof.
  rewrite scan_notes. intros [[]%elem_of_nil|Hin]%elem_fold_set.
  apply list_elem_of_fmap in Hin as (e & [= -> ->] & He). by exists e.
Qed.

(** X3. The matrix the builder returns is rectangular, every row has
    [shape[1]] cells, and every cell lies between 0 and 1. *)
Theorem chroma_cells_in_unit_interval (elems : list element) m idx :
  _meico_to_chroma elems = Ok (m, idx) ->
  Forall (fun row => length row = Z.to_nat (shape1 m)) m
  /\ Forall (Forall (fun x => 0 <= x <= 1)) m.
Proof.
  intros Hok. destruct (builder_result elems m idx Hok) as [_ Hr].
  destruct Hr as [(_ & -> & _)|(s0 & w & M & _ & _ & Hw & HM & -> & _ & _)].
  - split; by repeat constructor.
  - destruct (normalize_shape w M HM) as [H12 Hrows]. rewrite Hw, Nat2Z.id.
    split; [done|]. apply (cells_Forall _ w); [done | done |].
    intros r j Hr Hj.
    destruct (normalize_cell w M r j HM Hr Hj) as (l & Hl & -> & Hle).
    destruct (counts_cell w M r j HM Hr Hj) as (_ & _ & _ & _ & n & Hn & Hx).
    assert (0 <= cell M r j) by (rewrite Hx; by apply (inject_Z_le 0 n)).
    split.
    + by apply Qdiv_nonneg.
    + apply Qle_shift_div_r; [done|]. lra.
Qed.

(** X5. Rests add no energy: when no qualifying element is a note of the
    MEI namespace, every cell of the returned matrix is zero. *)
Theorem rests_give_zero_matrix (elems : list element) m idx :
  _meico_to_chroma elems = Ok (m, idx) ->
  (forall e, e ∈ qualifying elems -> is_mei_note e = false) ->
  Forall (Forall (fun x => x == 0)) m.
Proof.
  intros Hok Hrest. destruct (builder_result elems m idx Hok) as [_ Hr].
  destruct Hr as [(_ & -> & _)|(s0 & w & M & _ & _ & Hw & HM & -> & _ & Hcells)].
  - by repeat constructor.
  - destruct (normalize_shape w M HM) as [H12 Hrows].
    apply (cells_Forall _ w); [done | done |]. intros r j Hr Hj.
    destruct (normalize_cell w M r j HM Hr Hj) as (l & Hl & -> & _).
    rewrite (Hcells r j Hr Hj).
    assert (Hnone : filter (fun kv => covers s0 (Z.of_nat w) r j kv.2 = true)
                      (notes_and_rests (fold_left scan_pure (qualifying elems) scan0))
                    = []).
    { apply filter_none. intros [k nr] (e & He & _ & ->)%notes_origin.
      unfold covers, data_of, pitch_of. simpl. by rewrite (Hrest e He). }
    rewrite Hnone. simpl. reflexivity.
Qed.


End matrix_contents.

(** ** The builder: more on the index dictionary *)

Section index_more.
Import Mei Spec.
Local Open Scope Q_scope.

(** Folding assignments computed from the items of a list: the last item
    with the key decides. *)
Lemma get_fold_set_fmap {A K V} `{EqDecision K} (g : A -> K * V)
    (l : list A) (d : Py.dict K V) (k : K) :
  Py.get (fold_left (fun d kv => Py.set d kv.1 kv.2) (g <$> l) d) k
  = match last (filter (fun x => (g x).1 = k) l) with
    | Some x => Some (g x).2
    | None => Py.get d k
    end.
Proof.
  revert d. induction l as [|x l IH]; intros d; [done|].
  rewrite fmap_cons. cbn [fold_left]. rewrite IH, filter_cons.
  destruct (decide ((g x).1 = k)) as [Hk|Hk].
  - rewrite last_cons. destruct (last _); [done|]. rewrite <- Hk.
    apply get_set_eq.
  - destruct (last _); [done|]. by apply get_set_ne.
Qed.

Lemma NoDup_keys_fold {K V} `{EqDecision K} (pairs : list (K * V))
    (d : Py.dict K V) :
  NoDup (Py.keys d) ->
  NoDup (Py.keys (fold_left (fun d kv => Py.set d kv.1 kv.2) pairs d)).
Proof.
  revert d. induction pairs as [|kv pairs IH]; intros d Hd; [done|].
  apply IH. by apply NoDup_keys_set.
Qed.

Lemma get_fmap_values {K V W} `{EqDecision K} (f : V -> W)
    (d : Py.dict K V) (k : K) :
  Py.get ((fun kv => (kv.1, f kv.2)) <$> d) k = f <$> Py.get d k.
Proof.
  induction d as [|[k' v] d IH]; [done|]. rewrite fmap_cons. simpl.
  by destruct (decide (k' = k)).
Qed.

(** The index dictionary is the dictionary of stored elements with every
    value replaced by its first column. *)
Lemma index_of_notes (s : Q) (st : scan) :
  NoDup (Py.keys (notes_and_rests st)) ->
  (chroma_pure s st).2
  = (fun kv => (kv.1, begin_of s kv.2)) <$> notes_and_rests st.
Proof.
  intros Hnd. unfold chroma_pure. cbv zeta. cbn [snd].
  rewrite place_index. cbn [snd]. rewrite fold_set_fresh; [done|].
  simpl. by rewrite <- list_fmap_compose.
Qed.

Lemma notes_keys_NoDup (qs : list element) :
  NoDup (Py.keys (notes_and_rests (fold_left scan_pure qs scan0))).
Proof. rewrite scan_notes. apply NoDup_keys_fold. constructor. Qed.

(** The entry of an identifier, whatever the identifiers are. *)
Lemma index_lookup (qs : list element) (s : Q) id :
  Py.get (chroma_pure s (fold_left scan_pure qs scan0)).2 id
  = (fun e => Qfloor (date_of e / s))
      <$> last (filter (fun e => xml_id e = id) qs).
Proof.
  rewrite index_of_notes by apply notes_keys_NoDup.
  rewrite get_fmap_values, scan_notes.
  rewrite (get_fold_set_fmap (fun e => (xml_id e, data_of e))). simpl.
  by destruct (last _).
Qed.


Lemma last_filter_distinct {A B} `{EqDecision B} (f : A -> B) (l : list A) (x : A) :
  NoDup (f <$> l) -> x ∈ l -> last (filter (fun y => f y = f x) l) = Some x.
Proof.
  intros Hnd Hx.
  assert (Hf : filter (fun y => f y = f x) l = [x]); [|by rewrite Hf].
  induction l as [|y l IH]; [by apply elem_of_nil in Hx|].
  rewrite fmap_cons in Hnd. apply NoDup_cons in Hnd as [Hy Hnd].
  rewrite filter_cons. apply elem_of_cons in Hx as [->|Hx].
  - rewrite decide_True by done. f_equal. apply filter_none.
    intros z Hz Hfz. apply Hy. rewrite <- Hfz. apply list_elem_of_fmap.
    by exists z.
  - rewrite decide_False; [by apply IH|].
    intros Hfy. apply Hy. rewrite Hfy. apply list_elem_of_fmap. by exists x.
Qed.

(** The entry of an element of a score with pairwise distinct
    identifiers. *)
Lemma index_entry (elems : list element) m idx (s : Q) (e : element) (d : Q) :
  _meico_to_chroma elems = Ok (m, idx) ->
  NoDup (xml_id <$> qualifying elems) ->
  shortest_duration_tick (qualifying elems) s ->
  e ∈ qualifying elems -> midi_date e = Number d ->
  Py.get idx (xml_id e) = Some (Qfloor (d / s)).
Proof.
  intros Hok Hnd Hs He Hd.
  destruct (builder_result elems m idx Hok) as [Hwf Hres].
  set (qs := qualifying elems) in *.
  destruct Hres as [(Hq & _)|(s0 & w & M & Es & Hs0 & _ & _ & _ & -> & _)].
  { rewrite Hq in He. by apply elem_of_nil in He. }
  assert (Hss : s0 == s).
  { apply (shortest_duration_tick_unique qs); [|done].
    by apply scan_shortest_tick. }
  rewrite index_lookup, (last_filter_distinct xml_id) by done.
  cbn [fmap option_fmap option_map]. rewrite (well_formed_date e d Hd).
  f_equal. by apply Qfloor_div_proper.
Qed.

(** X7. The index follows the onset: on a score with pairwise distinct
    identifiers and a positive shortest duration, an element that does not
    start later than another does not get a larger index. *)
Theorem index_monotone_in_onset (elems : list element) m idx (s : Q)
    (e1 e2 : element) (d1 d2 : Q) :
  _meico_to_chroma elems = Ok (m, idx) ->
  NoDup (xml_id <$> qualifying elems) ->
  shortest_duration_tick (qualifying elems) s -> 0 < s ->
  e1 ∈ qualifying elems -> e2 ∈ qualifying elems ->
  midi_date e1 = Number d1 -> midi_date e2 = Number d2 -> d1 <= d2 ->
  exists i1 i2, Py.get idx (xml_id e1) = Some i1
                /\ Py.get idx (xml_id e2) = Some i2 /\ (i1 <= i2)%Z.
Proof.
  intros Hok Hnd Hs Hpos He1 He2 Hd1 Hd2 Hle.
  exists (Qfloor (d1 / s)), (Qfloor (d2 / s)).
  rewrite (index_entry elems m idx s e1 d1), (index_entry elems m idx s e2 d2)
    by done.
  split_and!; [done | done |]. by apply Qfloor_resp_le, Qdiv_le_mono.
Qed.
End index_more.

(** ** Measure lookup: which measure is found *)

Section xpath_facts.
Import Mei Spec.

Lemma existsb_flat_map {A B} (p : B -> bool) (f : A -> list B) (l : list A) :
  existsb p (flat_map f l) = existsb (fun x => existsb p (f x)) l.
Proof.
  induction l as [|x l IH]; [done|]. simpl. by rewrite existsb_app, IH.
Qed.

Lemma existsb_ext_Forall {A} (p q : A -> bool) (l : list A) :
  Forall (fun x => p x = q x) l -> existsb p l = existsb q l.
Proof. induction 1 as [|x l Hx _ IH]; [done|]. simpl. by rewrite Hx, IH. Qed.

(** [holds_id] looks at the element and at everything below it. *)
Lemma holds_id_encloses (key : string) (e : xml) :
  holds_id key e = bool_decide (xml_xmlid e = Some key) || encloses key e.
Proof.
  induction e as [t i n cs IH] using xml_induction. simpl. f_equal.
  unfold encloses. simpl. rewrite existsb_flat_map.
  apply existsb_ext_Forall. eapply Forall_impl; [exact IH|].
  intros c Hc. simpl. by rewrite Hc.
Qed.

Lemma encloses_children (key : string) t i n cs :
  encloses key (Element t i n cs) = existsb (holds_id key) cs.
Proof.
  unfold encloses. simpl. rewrite existsb_flat_map.
  apply existsb_ext_Forall, Forall_forall. intros c _. simpl.
  by rewrite holds_id_encloses.
Qed.

(** The XPath returns the measures that enclose an element with the key,
    in document order. *)
Lemma xpath_measures_doc_order (key : string) (e : xml) :
  xpath_measures key e
  = filter (fun m => is_measure m && encloses key m = true)
           (e :: descendants e).
Proof.
  induction e as [t i n cs IH] using xml_induction.
  cbn [xpath_measures descendants]. rewrite filter_cons.
  rewrite encloses_children. unfold is_measure at 1. cbn [xml_tag].
  assert (Hrest : flat_map (xpath_measures key) cs
                  = filter (fun m => is_measure m && encloses key m = true)
                           (flat_map (fun c => c :: descendants c) cs)).
  { clear -IH. induction IH as [|c cs Hc _ IHcs]; [done|].
    cbn [flat_map]. by rewrite filter_app, Hc, IHcs. }
  rewrite Hrest.
  destruct (decide (bool_decide (t = mei_measure)
                    && existsb (holds_id key) cs = true)) as [H|H].
  - by rewrite H.
  - apply not_true_is_false in H. by rewrite H.
Qed.

(** A key of the map gives an entry and no warning, or a warning and no
    entry. *)
Lemma measure_outcome (output_json : Py.dict string Q) (mei_tree : xml)
    (key : string) :
  key ∈ Py.keys output_json ->
  (length (option_list (entry_for output_json mei_tree key))
   + length (option_list (warning_for mei_tree key)) = 1)%nat.
Proof.
  intros (ts & Hget & _)%item_key. unfold entry_for, warning_for.
  rewrite Hget. destruct (xpath_measures key mei_tree) as [|m ms]; [done|].
  by destruct (xml_n m), (xml_xmlid m).
Qed.

(** X9. The measure used for a key is the first element in document
    order that is a [measure] of the MEI namespace with an element carrying
    the key as [xml:id] below it; with measures inside measures that is the
    outermost one. No measure is found exactly when no element of the
    document is such a measure. *)
Theorem first_enclosing_measure (key : string) (tree : xml) :
  match xpath_measures key tree with
  | m :: _ =>
      is_measure m = true /\ encloses key m = true
      /\ exists l1 l2,
           tree :: descendants tree = l1 ++ m :: l2
           /\ forall x, x ∈ l1 -> ~ (is_measure x = true /\ encloses key x = true)
  | [] =>
      forall x, x ∈ tree :: descendants tree ->
                ~ (is_measure x = true /\ encloses key x = true)
  end.
Proof.
  rewrite xpath_measures_doc_order.
  generalize (tree :: descendants tree). intros l.
  induction l as [|x l IH].
  - rewrite filter_nil. by intros x ?%elem_of_nil.
  - rewrite filter_cons.
    destruct (decide (is_measure x && encloses key x = true)) as [Hx|Hx].
    + apply andb_true_iff in Hx as [? ?]. split_and!; [done | done |].
      exists [], l. split; [done|]. by intros ? ?%elem_of_nil.
    + assert (Hx' : ~ (is_measure x = true /\ encloses key x = true)).
      { intros [? ?]. apply Hx. by apply andb_true_iff. }
      destruct (filter _ l) as [|m ms].
      * intros y [->|Hy]%elem_of_cons; [done | by apply IH].
      * destruct IH as (Hm & Hk & l1 & l2 & -> & Hl1).
        split_and!; [done | done |]. exists (x :: l1), l2. split; [done|].
        intros y [->|Hy]%elem_of_cons; [done | by apply Hl1].
Qed.

Lemma first_enclosing_measure_witness :
  xpath_measures "a" Examples.nested
  = [Examples.nested;
     Element mei_measure (Some "inner"%string) (Some "2"%string)
       [Element "{http://www.music-encoding.org/ns/mei}note"
                (Some "a"%string) None []]]
  /\ is_measure Examples.nested = true.
Proof.
  split; [reflexivity|].
  pose proof (first_enclosing_measure "a" Examples.nested) as H.
  change (xpath_measures "a" Examples.nested) with
    (Examples.nested :: tl (xpath_measures "a" Examples.nested)) in H.
  by destruct H as [H _].
Defined.

Lemma measure_outcomes (output_json : Py.dict string Q) (mei_tree : xml)
    (ks : list string) :
  ks ⊆ Py.keys output_json ->
  (length (omap (entry_for output_json mei_tree) ks)
   + length (omap (warning_for mei_tree) ks) = length ks)%nat.
Proof.
  induction ks as [|key ks IH]; intros Hsub; [done|].
  cbn [omap list_omap length].
  pose proof (measure_outcome output_json mei_tree key (Hsub key ltac:(left))).
  assert (IH' := IH (fun k Hk => Hsub k ltac:(by right))).
  destruct (entry_for output_json mei_tree key),
    (warning_for mei_tree key); simpl in *; lia.
Qed.

(** X8. The lookup accounts for every key: the entries and the warnings
    together are as many as the keys of the timestamp map. Every entry
    comes from a key of the map and a [measure] element of the document that
    encloses an element with that key: it has the number and the identifier
    of the measure and the timestamp of the key. *)
Theorem lookup_accounts_for_every_key (output_json : Py.dict string Q)
    (mei_tree : xml) result printed :
  get_measure_timestamps output_json mei_tree = Ok (result, printed) ->
  (length result + length printed = length (Py.keys output_json))%nat
  /\ forall e, e ∈ result ->
       exists key m,
         Py.get output_json key = Some (timestamp_sec e)
         /\ m ∈ mei_tree :: descendants mei_tree
         /\ is_measure m = true /\ encloses key m = true
         /\ xml_n m = Some (measure_number e)
         /\ xml_xmlid m = Some (measure_id e).
Proof.
  unfold get_measure_timestamps. rewrite lookup_measure_loop by done.
  intros [= <- <-]. simpl. split.
  - by apply measure_outcomes.
  - intros e (key & Hkey & He)%list_elem_of_omap. exists key.
    unfold entry_for in He.
    destruct (xpath_measures key mei_tree) as [|m ms] eqn:Ex; [done|].
    destruct (Py.get output_json key) as [ts|]; [|done].
    destruct (xml_n m) as [number|] eqn:En; [|done].
    destruct (xml_xmlid m) as [mid|] eqn:Ei; [|done].
    injection He as <-. simpl. exists m.
    assert (Hm : m ∈ xpath_measures key mei_tree) by (rewrite Ex; left).
    rewrite xpath_measures_doc_order in Hm.
    apply list_elem_of_filter in Hm as [[? ?]%andb_true_iff Hm]. done.
Qed.
End xpath_facts.

(** ** Measure lookup: keys the document does not have *)

Section unknown_keys.
Import Mei Spec.

Lemma elem_of_flat_map {A B} (f : A -> list B) (l : list A) (y : B) :
  y ∈ flat_map f l <-> exists x, x ∈ l /\ y ∈ f x.
Proof.
  rewrite list_elem_of_In, in_flat_map. split.
  - intros (x & Hx & Hy). exists x. by rewrite !list_elem_of_In.
  - intros (x & Hx & Hy). exists x. by rewrite <- !list_elem_of_In.
Qed.

Lemma encloses_false (key : string) (e : xml) :
  (forall x, x ∈ descendants e -> xml_xmlid x <> Some key) ->
  encloses key e = false.
Proof.
  intros Hall. unfold encloses. apply not_true_is_false.
  intros (d & Hd & Hid)%existsb_exists. apply list_elem_of_In in Hd.
  apply bool_decide_eq_true in Hid. by apply (Hall d).
Qed.

Lemma xpath_measures_unknown (key : string) (e : xml) :
  (forall x, x ∈ descendants e -> xml_xmlid x <> Some key) ->
  xpath_measures key e = [].
Proof.
  induction e as [t i n cs IH] using xml_induction. intros Hall.
  cbn [xpath_measures]. rewrite <- (encloses_children key t i n cs).
  rewrite encloses_false, andb_false_r by done. simpl.
  assert (Hcs : forall c, c ∈ cs -> xpath_measures key c = []).
  { intros c Hc. rewrite Forall_forall in IH. apply IH; [done|].
    intros x Hx. apply Hall. cbn [descendants]. apply elem_of_flat_map.
    exists c. split; [done | by right]. }
  clear -Hcs. induction cs as [|c cs IHcs]; [done|]. cbn [flat_map].
  rewrite Hcs by left. simpl. apply IHcs. intros c' Hc'. apply Hcs. by right.
Qed.

Lemma unknown_outcomes (output_json : Py.dict string Q) (mei_tree : xml)
    (ks : list string) :
  (forall key, key ∈ ks -> xpath_measures key mei_tree = []) ->
  omap (entry_for output_json mei_tree) ks = []
  /\ omap (warning_for mei_tree) ks = NoMeasureFound <$> ks.
Proof.
  induction ks as [|key ks IH]; intros Hall; [done|].
  destruct IH as [IH1 IH2]; [intros k Hk; apply Hall; by right|].
  cbn [omap list_omap]. rewrite IH1, IH2, fmap_cons.
  unfold entry_for, warning_for. by rewrite (Hall key) by left.
Qed.

(** X10. Keys that are the [xml:id] of no element below the root of the
    document (identifiers added by the timing expander, for one) give no
    entry at all: the lookup returns an empty list and prints one
    no-measure warning per key, in the order of the keys. *)
Theorem unknown_keys_give_warnings (output_json : Py.dict string Q)
    (mei_tree : xml) :
  (forall key x, key ∈ Py.keys output_json -> x ∈ descendants mei_tree ->
                 xml_xmlid x <> Some key) ->
  get_measure_timestamps output_json mei_tree
  = Ok ([], NoMeasureFound <$> Py.keys output_json).
Proof.
  intros Hall. unfold get_measure_timestamps.
  rewrite lookup_measure_loop by done. simpl.
  destruct (unknown_outcomes output_json mei_tree (Py.keys output_json))
    as [-> ->]; [|done].
  intros key Hkey. apply xpath_measures_unknown. intros x Hx.
  by apply (Hall key x).
Qed.

Lemma unknown_keys_give_warnings_witness :
  get_measure_timestamps [("zz"%string, 4%Q)] Examples.score
  = Ok ([], [NoMeasureFound "zz"]).
Proof.
  apply (unknown_keys_give_warnings [("zz"%string, 4%Q)] Examples.score).
  intros key x Hkey Hx. apply list_elem_of_singleton in Hkey as ->.
  simpl in Hx. repeat (apply elem_of_cons in Hx as [->|Hx]); try done.
  by apply elem_of_nil in Hx.
Defined.
End unknown_keys.

(** ** Sorting, again *)

Section sorted_more.
Context {X Kt : Type} (key : X -> Py.result Kt) (lt : Kt -> Kt -> bool).
Implicit Types (l keyed : list (Kt * X)) (xs out : list X).

(** A list in which every item may stand before the next is left as it
    is. *)
Lemma sort_keyed_fixed l : Sorted (Py.before lt) l -> Py.sort_keyed lt l = l.
Proof.
  induction 1 as [|x l Hl IH Hhd]; [done|]. simpl. rewrite IH.
  destruct Hhd as [|y l' Hxy]; [done|]. simpl.
  unfold Py.before in Hxy. by rewrite Hxy.
Qed.

(** The list that [sorted] sorts: the items with their keys. *)
Lemma sorted_keyed xs out :
  Py.sorted key lt xs = Ok out ->
  exists keyed,
    keyed.*2 = xs /\ Forall (fun kx => key kx.2 = Ok kx.1) keyed
    /\ out = (Py.sort_keyed lt keyed).*2.
Proof.
  unfold Py.sorted.
  destruct (Py.map_each _ xs) as [keyed|] eqn:E; simpl; [|done].
  intros [= <-]. exists keyed. apply map_each_Ok in E.
  split_and!; [| |done].
  - induction E as [|x kx xs keyed Hx _ IH]; [done|].
    destruct (key x) as [k|]; simpl in Hx; [|done]. injection Hx as <-.
    rewrite fmap_cons. by f_equal.
  - induction E as [|x kx xs keyed Hx _ IH]; [done|].
    destruct (key x) as [k|] eqn:Ek; simpl in Hx; [|done]. injection Hx as <-.
    by constructor.
Qed.

Lemma map_each_keyed l :
  Forall (fun kx => key kx.2 = Ok kx.1) l ->
  Py.map_each (fun x => Py.bind (key x) (fun k => Ok (k, x))) (l.*2) = Ok l.
Proof.
  induction 1 as [|[k x] l Hk _ IH]; [done|]. rewrite fmap_cons. simpl in *.
  by rewrite Hk, IH.
Qed.

(** Sorting a second time changes nothing. *)
Lemma sorted_twice xs out :
  (forall a b, lt a b = true -> lt b a = false) ->
  Py.sorted key lt xs = Ok out -> Py.sorted key lt out = Ok out.
Proof.
  intros Hasym (keyed & _ & Hkeys & ->)%sorted_keyed. unfold Py.sorted.
  rewrite map_each_keyed.
  - simpl. by rewrite sort_keyed_fixed by by apply sort_keyed_Sorted.
  - apply Forall_forall. intros p Hp. rewrite sort_keyed_perm in Hp.
    rewrite Forall_forall in Hkeys. auto.
Qed.


End sorted_more.

(** ** Measure reduction: further properties *)

Section reduction_more.
Import Mei Spec.
Local Open Scope Q_scope.

(** Entries of measures not seen before are appended. *)
Lemma keep_earliest_fresh (ls : list MeasureEntry)
    (seen : Py.dict string MeasureEntry) :
  NoDup (Py.keys seen ++ (measure_id <$> ls)) ->
  fold_left keep_earliest ls seen
  = seen ++ ((fun e => (measure_id e, e)) <$> ls).
Proof.
  revert seen. induction ls as [|e ls IH]; intros seen Hnd.
  - simpl. by rewrite app_nil_r.
  - cbn [fold_left]. rewrite fmap_cons in Hnd.
    assert (Hfresh : measure_id e ∉ Py.keys seen).
    { apply NoDup_app in Hnd as (_ & Hdisj & _). intros Hk.
      apply (Hdisj _ Hk). left. }
    unfold keep_earliest at 2.
    rewrite (proj2 (get_None seen (measure_id e)) Hfresh).
    rewrite set_fresh by done. rewrite IH.
    + rewrite fmap_cons. by rewrite <- app_assoc.
    + unfold Py.keys in *. rewrite fmap_app. simpl.
      by rewrite <- app_assoc.
Qed.

Lemma values_of_entries (ls : list MeasureEntry) :
  Py.values ((fun e => (measure_id e, e)) <$> ls) = ls.
Proof.
  unfold Py.values. rewrite <- list_fmap_compose. apply list_fmap_id.
Qed.

Lemma reduction_ids_distinct (measure_timestamps out : list MeasureEntry) :
  filter_measures_by_tstamp measure_timestamps = Ok out ->
  NoDup (measure_id <$> out).
Proof.
  unfold filter_measures_by_tstamp.
  intros [Hperm _]%(sorted_Ok _ _ tuple_lt_asym).
  pose proof (keep_earliest_loop measure_timestamps) as Hinv.
  rewrite Hperm, (earliest_ids _ _ Hinv). by destruct Hinv as [? _].
Qed.

(** X11. The reduction is idempotent: applied to its own result it returns
    the same list. *)
Theorem reduction_idempotent (measure_timestamps out : list MeasureEntry) :
  filter_measures_by_tstamp measure_timestamps = Ok out ->
  filter_measures_by_tstamp out = Ok out.
Proof.
  intros Hok. pose proof (reduction_ids_distinct _ _ Hok) as Hnd.
  unfold filter_measures_by_tstamp in *.
  rewrite keep_earliest_fresh by done. simpl. rewrite values_of_entries.
  eapply sorted_twice; [apply tuple_lt_asym | exact Hok].
Qed.

(** X13. When the measure identifiers of the entries are pairwise
    distinct nothing is dropped: the result is a rearrangement of the
    input. *)
Theorem reduction_keeps_distinct_measures
    (measure_timestamps out : list MeasureEntry) :
  filter_measures_by_tstamp measure_timestamps = Ok out ->
  NoDup (measure_id <$> measure_timestamps) ->
  out ≡ₚ measure_timestamps.
Proof.
  unfold filter_measures_by_tstamp. intros Hok Hnd.
  rewrite keep_earliest_fresh in Hok by done. simpl in Hok.
  rewrite values_of_entries in Hok.
  by apply (sorted_Ok _ _ tuple_lt_asym) in Hok as [? _].
Qed.



(** X14. Ties go to the entry seen first. An entry is retained when every
    earlier entry of its measure has a strictly larger timestamp and no
    later entry of its measure has a smaller one. *)
Theorem reduction_first_seen_wins (before after out : list MeasureEntry)
    (x : MeasureEntry) :
  filter_measures_by_tstamp (before ++ x :: after) = Ok out ->
  (forall e, e ∈ before -> measure_id e = measure_id x ->
             timestamp_sec x < timestamp_sec e) ->
  (forall e, e ∈ after -> measure_id e = measure_id x ->
             timestamp_sec x <= timestamp_sec e) ->
  x ∈ out.
Proof.
  unfold filter_measures_by_tstamp.
  intros [Hperm _]%(sorted_Ok _ _ tuple_lt_asym) Hbefore Hafter.
  rewrite Hperm. clear Hperm out.
  rewrite fold_left_app. cbn [fold_left].
  pose proof (keep_earliest_loop before) as (_ & Hval & _).
  set (seen1 := fold_left keep_earliest before []) in *.
  assert (Hx : Py.get (keep_earliest seen1 x) (measure_id x) = Some x).
  { unfold keep_earliest.
    destruct (Py.get seen1 (measure_id x)) as [old|] eqn:Eold.
    - apply get_Some_elem in Eold. destruct (Hval _ _ Eold) as [Hid Hin].
      specialize (Hbefore old Hin Hid). apply Qlt_bool_true in Hbefore.
      rewrite Hbefore. apply get_set_eq.
    - apply get_set_eq. }
  assert (Hkeep : forall ls seen,
            Py.get seen (measure_id x) = Some x ->
            (forall e, e ∈ ls -> measure_id e = measure_id x ->
                       timestamp_sec x <= timestamp_sec e) ->
            Py.get (fold_left keep_earliest ls seen) (measure_id x) = Some x).
  { clear. induction ls as [|e ls IH]; intros seen Hget Hall; [done|].
    cbn [fold_left]. apply IH; [|intros; apply Hall; [by right | done]].
    unfold keep_earliest.
    destruct (decide (measure_id e = measure_id x)) as [Heq|Hne].
    - rewrite Heq, Hget.
      assert (Hle : timestamp_sec x <= timestamp_sec e) by (apply Hall; [left | done]).
      apply Qlt_bool_false in Hle. by rewrite Hle.
    - destruct (Py.get seen (measure_id e)) as [old|].
      + destruct (Py.Qlt_bool _ _); [|done]. by rewrite get_set_ne.
      + by rewrite get_set_ne. }
  specialize (Hkeep after _ Hx Hafter). apply get_Some_elem in Hkeep.
  apply list_elem_of_fmap. by exists (measure_id x, x).
Qed.
End reduction_more.

(** ** The path dictionary of a descending path *)

Section path_facts.
Import Spec.

Lemma last_filter_split {A} (P : A -> Prop) `{forall x, Decision (P x)}
    (l : list A) (x : A) :
  last (filter P l) = Some x ->
  exists l1 l2, l = l1 ++ x :: l2 /\ P x /\ forall y, y ∈ l2 -> ~ P y.
Proof.
  induction l as [|y l IH]; [done|]. rewrite filter_cons.
  destruct (last (filter P l)) as [z|] eqn:El.
  - intros Hx.
    assert (z = x) as ->.
    { destruct (decide (P y)); [|congruence].
      rewrite last_cons, El in Hx. congruence. }
    destruct (IH eq_refl) as (l1 & l2 & -> & Hp & Hl2).
    by exists (y :: l1), l2.
  - destruct (decide (P y)) as [Hy|Hy]; [|by rewrite El].
    rewrite last_cons, El. intros [= ->]. exists [], l.
    split_and!; [done | done |]. intros z Hz Hpz.
    apply last_None in El.
    by destruct (filter_nil_not_elem_of _ _ z El).
Qed.

(** Where the value of a key sits on the path. *)
Lemma path_dict_split (path : list (Z * Z)) (i a : Z) :
  Py.get (Main.path_dict path) i = Some a ->
  exists l1 l2, path = l1 ++ (i, a) :: l2 /\ forall p, p ∈ l2 -> p.1 <> i.
Proof.
  unfold Main.path_dict, Py.of_pairs. rewrite get_fold_set.
  destruct (last (filter (fun kv : Z * Z => kv.1 = i) path)) as [[i' a']|] eqn:El;
    [|done].
  simpl. intros [= ->].
  apply last_filter_split in El as (l1 & l2 & -> & Hi & Hl2). simpl in Hi.
  subst i'. by exists l1, l2.
Qed.

Lemma descending_split (l1 l2 : list (Z * Z)) (p : Z * Z) :
  descending (l1 ++ p :: l2) ->
  (forall q, q ∈ l1 -> p.1 <= q.1 /\ p.2 <= q.2)
  /\ (forall q, q ∈ l2 -> q.1 <= p.1 /\ q.2 <= p.2).
Proof.
  unfold descending. intros Hs. apply Sorted_StronglySorted in Hs.
  2:{ intros x y z [? ?] [? ?]. lia. }
  induction l1 as [|q0 l1 IH]; simpl in Hs.
  - apply StronglySorted_inv in Hs as [_ Hall]. rewrite Forall_forall in Hall.
    split; [by intros q ?%elem_of_nil | done].
  - apply StronglySorted_inv in Hs as [Hs Hall]. rewrite Forall_forall in Hall.
    destruct (IH Hs) as [IH1 IH2]. split; [|done].
    intros q [->|Hq]%elem_of_cons; [|by apply IH1].
    apply Hall. apply elem_of_app. right. left.
Qed.

(** The value of a score column is the smallest audio column paired with
    it on a descending path. *)
Lemma path_dict_min (path : list (Z * Z)) (i a b : Z) :
  descending path ->
  Py.get (Main.path_dict path) i = Some a -> (i, b) ∈ path -> a <= b.
Proof.
  intros Hdesc (l1 & l2 & -> & Hl2)%path_dict_split Hb.
  destruct (descending_split l1 l2 (i, a) Hdesc) as [H1 _].
  apply elem_of_app in Hb as [Hb|Hb].
  - by destruct (H1 _ Hb).
  - apply elem_of_cons in Hb as [[= ->]|Hb]; [done|].
    by destruct (Hl2 _ Hb).
Qed.

Lemma path_dict_order (path : list (Z * Z)) (i j a b : Z) :
  descending path ->
  Py.get (Main.path_dict path) i = Some a ->
  Py.get (Main.path_dict path) j = Some b ->
  i <= j -> a <= b.
Proof.
  intros Hdesc Hi Hj Hij.
  destruct (path_dict_split path j b Hj) as (l1 & l2 & Hpath & Hl2).
  destruct (path_dict_split path i a Hi) as (k1 & k2 & Hpath' & Hk2).
  assert (Hjb : (j, b) ∈ path).
  { rewrite Hpath. apply elem_of_app. right. left. }
  destruct (decide (i = j)) as [->|Hne].
  - by apply (path_dict_min path j a b).
  - rewrite Hpath' in Hdesc, Hjb.
    destruct (descending_split k1 k2 (i, a) Hdesc) as [H1 H2].
    apply elem_of_app in Hjb as [Hjb|Hjb].
    + by destruct (H1 _ Hjb).
    + apply elem_of_cons in Hjb as [[= -> ->]|Hjb]; [done|].
      destruct (H2 _ Hjb). simpl in *. lia.
Qed.

(** X16. For a warp path that runs from the end of both sequences to
    their start (neither coordinate grows along it), the path dictionary
    gives every score column the smallest audio column paired with it, and
    it is monotone: a score column that is not larger gets an audio column
    that is not larger. *)
Theorem path_dict_monotone (path : list (Z * Z)) :
  descending path ->
  (forall i a b, Py.get (Main.path_dict path) i = Some a ->
                 (i, b) ∈ path -> a <= b)
  /\ (forall i j a b,
        Py.get (Main.path_dict path) i = Some a ->
        Py.get (Main.path_dict path) j = Some b ->
        i <= j -> a <= b).
Proof.
  intros Hdesc. split.
  - intros i a b. by apply path_dict_min.
  - intros i j a b. by apply path_dict_order.
Qed.

Lemma warp_path_descending : descending Examples.warp_path.
Proof. repeat constructor; simpl; lia. Qed.

Lemma path_dict_monotone_witness :
  (forall i a b, Py.get (Main.path_dict Examples.warp_path) i = Some a ->
                 (i, b) ∈ Examples.warp_path -> a <= b)
  /\ (forall i j a b,
        Py.get (Main.path_dict Examples.warp_path) i = Some a ->
        Py.get (Main.path_dict Examples.warp_path) j = Some b ->
        i <= j -> a <= b).
Proof. apply (path_dict_monotone Examples.warp_path), warp_path_descending. Defined.
End path_facts.

(** ** The timestamp dictionary: further properties *)

Section timestamp_more.
Import Spec.
Local Open Scope Q_scope.

(** When step 4 returns, every score column of the index dictionary is in
    the path dictionary. *)
Lemma id_to_time_mapped (audio_len : Z) (frame_rate : Q) (columns : Z)
    (trim_start : Q) (pd : Py.dict Z Z) (idx : Py.dict (option string) Z) t :
  Main.id_to_time audio_len frame_rate columns trim_start pd idx = Ok t ->
  ~ frame_rate == 0 /\ columns <> 0%Z
  /\ forall id col, Py.get idx id = Some col -> is_Some (Py.get pd col).
Proof.
  unfold Main.id_to_time. intros (x & Hx & (cl & Hcl & Hloop)%bind_Ok)%bind_Ok.
  apply py_div_Ok in Hx as [Hrate ->]. apply py_div_Ok in Hcl as [Hcols ->].
  split_and!; [done| |].
  - intros ->. by apply Hcols.
  - intros id col Hcol. destruct (Py.get pd col) as [a|] eqn:Ha; [by eexists|].
    rewrite time_of_loop_Err in Hloop; [done | done |].
    exists id, col. split_and!; [|done|done].
    apply get_Some_elem in Hcol. apply list_elem_of_fmap. by exists (id, col).
Qed.

(** The values step 4 computes. *)
Lemma id_to_time_values (audio_len : Z) (frame_rate : Q) (columns : Z)
    (trim_start : Q) (pd : Py.dict Z Z) (idx : Py.dict (option string) Z) t :
  Main.id_to_time audio_len frame_rate columns trim_start pd idx = Ok t ->
  forall id,
    Py.get t id
    = match Py.get idx id with
      | Some col =>
          (fun a => inject_Z a
                    * (inject_Z audio_len / frame_rate / inject_Z columns)
                    + trim_start / 1000) <$> Py.get pd col
      | None => None
      end.
Proof.
  intros Hok. destruct (id_to_time_mapped _ _ _ _ _ _ _ Hok) as (Hrate & Hcols & Hmap).
  revert Hok. unfold Main.id_to_time.
  rewrite (proj2 (py_div_Ok _ frame_rate _) (conj Hrate eq_refl)). simpl.
  assert (Hc : ~ inject_Z columns == 0).
  { intros H. apply Hcols. by apply (inject_Z_injective columns 0). }
  rewrite (proj2 (py_div_Ok _ (inject_Z columns) _) (conj Hc eq_refl)). simpl.
  rewrite time_of_loop_Ok.
  2:{ intros id Hid. destruct (Py.get idx id) as [col|] eqn:Hcol.
      - exists col. split; [done | by eapply Hmap].
      - by apply get_None in Hcol. }
  intros [= <-] id. rewrite get_fold_set_fmap. cbn [fst snd].
  destruct (Py.get idx id) as [col|] eqn:Hcol.
  - assert (Hin : id ∈ Py.keys idx).
    { apply get_Some_elem in Hcol. apply list_elem_of_fmap. by exists (id, col). }
    destruct (last (filter (fun x => x = id) (Py.keys idx))) as [id'|] eqn:El.
    + apply last_Some_elem_of, list_elem_of_filter in El as [-> _].
      rewrite Hcol. simpl. unfold time_seconds.
      by destruct (Hmap id col Hcol) as [a ->].
    + apply last_None in El.
      by destruct (filter_nil_not_elem_of _ _ id El).
  - destruct (last (filter (fun x => x = id) (Py.keys idx))) as [id'|] eqn:El;
      [|done].
    apply last_Some_elem_of, list_elem_of_filter in El as [-> Hin].
    by apply get_None in Hcol.
Qed.

(** A score column has a value in the path dictionary exactly when the
    path visits it. *)
Lemma path_dict_domain (path : list (Z * Z)) (col : Z) :
  is_Some (Py.get (Main.path_dict path) col) <-> col ∈ path.*1.
Proof.
  unfold Main.path_dict, Py.of_pairs. rewrite get_fold_set.
  destruct (last (filter (fun kv : Z * Z => kv.1 = col) path)) as [kv|] eqn:El.
  - apply last_Some_elem_of, list_elem_of_filter in El as [<- Hin].
    split; [intros _ | by eexists]. apply list_elem_of_fmap. by exists kv.
  - split; [by intros [? [=]]|]. intros ([k v] & -> & Hin)%list_elem_of_fmap.
    apply last_None in El.
    by destruct (filter_nil_not_elem_of _ _ (k, v) El).
Qed.

(** X15. With a non-zero sample rate and a non-zero number of audio
    columns, step 4 returns exactly when the warp path visits the score
    column of every entry of the index dictionary. *)
Theorem id_to_time_returns_iff (audio_len : Z) (frame_rate : Q) (columns : Z)
    (trim_start : Q) (path : list (Z * Z)) (idx : Py.dict (option string) Z) :
  ~ frame_rate == 0 -> columns <> 0%Z ->
  (exists t, Main.id_to_time audio_len frame_rate columns trim_start
                             (Main.path_dict path) idx = Ok t)
  <-> forall id col, Py.get idx id = Some col -> col ∈ path.*1.
Proof.
  intros Hrate Hcols. split.
  - intros [t Hok]. destruct (id_to_time_mapped _ _ _ _ _ _ _ Hok) as (_ & _ & Hmap).
    intros id col Hcol. apply path_dict_domain. by eapply Hmap.
  - intros Hmap. unfold Main.id_to_time.
    rewrite (proj2 (py_div_Ok _ frame_rate _) (conj Hrate eq_refl)). simpl.
    assert (Hc : ~ inject_Z columns == 0).
    { intros H. apply Hcols. by apply (inject_Z_injective columns 0). }
    rewrite (proj2 (py_div_Ok _ (inject_Z columns) _) (conj Hc eq_refl)). simpl.
    eexists. apply time_of_loop_Ok. intros id Hid.
    destruct (Py.get idx id) as [col|] eqn:Hcol.
    + exists col. split; [done|]. apply path_dict_domain. by eapply Hmap.
    + by apply get_None in Hcol.
Qed.

(** X17. The trim offset shifts every timestamp by [trim_start / 1000]
    seconds and changes nothing else: when step 4 returns with an offset, it
    returns without one, over the same identifiers, and every value is the
    value without offset plus the shift. *)
Theorem trim_offset_shifts (audio_len : Z) (frame_rate : Q) (columns : Z)
    (trim_start : Q) (pd : Py.dict Z Z) (idx : Py.dict (option string) Z) t :
  Main.id_to_time audio_len frame_rate columns trim_start pd idx = Ok t ->
  exists t0,
    Main.id_to_time audio_len frame_rate columns 0 pd idx = Ok t0
    /\ forall id,
         match Py.get t id, Py.get t0 id with
         | Some v, Some v0 => v == v0 + trim_start / 1000
         | None, None => True
         | _, _ => False
         end.
Proof.
  intros Hok. destruct (id_to_time_mapped _ _ _ _ _ _ _ Hok) as (Hrate & Hcols & Hmap).
  assert (Hc : ~ inject_Z columns == 0).
  { intros H. apply Hcols. by apply (inject_Z_injective columns 0). }
  assert (H0 : exists t0,
             Main.id_to_time audio_len frame_rate columns 0 pd idx = Ok t0).
  { unfold Main.id_to_time.
    rewrite (proj2 (py_div_Ok _ frame_rate _) (conj Hrate eq_refl)). simpl.
    rewrite (proj2 (py_div_Ok _ (inject_Z columns) _) (conj Hc eq_refl)). simpl.
    eexists. apply time_of_loop_Ok. intros id Hid.
    destruct (Py.get idx id) as [col|] eqn:Hcol.
    - exists col. split; [done | by eapply Hmap].
    - by apply get_None in Hcol. }
  destruct H0 as [t0 Ht0]. exists t0. split; [done|]. intros id.
  rewrite (id_to_time_values _ _ _ _ _ _ _ Hok id),
    (id_to_time_values _ _ _ _ _ _ _ Ht0 id).
  destruct (Py.get idx id) as [col|]; [|done].
  destruct (Py.get pd col) as [a|]; [|done]. simpl. field. by split.
Qed.

(** X18. Timestamps are not negative: with a positive sample rate, a
    positive number of audio columns, a non-negative sample count and trim
    offset and non-negative audio columns on the path, every timestamp is at
    least the trim offset in seconds. *)
Theorem timestamps_at_least_offset (audio_len : Z) (frame_rate : Q)
    (columns : Z) (trim_start : Q) (pd : Py.dict Z Z)
    (idx : Py.dict (option string) Z) t :
  Main.id_to_time audio_len frame_rate columns trim_start pd idx = Ok t ->
  (0 <= audio_len)%Z -> 0 < frame_rate -> (0 < columns)%Z -> 0 <= trim_start ->
  (forall col a, Py.get pd col = Some a -> (0 <= a)%Z) ->
  forall id v, Py.get t id = Some v -> 0 <= trim_start / 1000 <= v.
Proof.
  intros Hok Hlen Hrate Hcols Htrim Hpos id v.
  rewrite (id_to_time_values _ _ _ _ _ _ _ Hok id).
  destruct (Py.get idx id) as [col|]; [|done].
  destruct (Py.get pd col) as [a|] eqn:Ha; [|done]. simpl. intros [= <-].
  assert (0 <= inject_Z a) by (apply (inject_Z_le 0); by eapply Hpos).
  assert (0 <= inject_Z audio_len) by by apply (inject_Z_le 0).
  assert (0 < inject_Z columns).
  { change 0 with (inject_Z 0). by rewrite <- Zlt_Qlt. }
  assert (0 <= inject_Z audio_len / frame_rate / inject_Z columns).
  { apply Qdiv_nonneg; [|done]. by apply Qdiv_nonneg. }
  assert (0 <= inject_Z a
               * (inject_Z audio_len / frame_rate / inject_Z columns))
    by by apply Qmult_le_0_compat.
  assert (0 <= trim_start / 1000) by (apply Qdiv_nonneg; [done | reflexivity]).
  lra.
Qed.
End timestamp_more.

(** ** The hop length of step 2 *)

Section hop_facts.
Import Mei Spec.
Local Open Scope Q_scope.

(** [round] is within one half of its argument. *)
Lemma round_near (x : Q) :
  - (1 # 2) <= inject_Z (Py.round x) - x <= 1 # 2.
Proof.
  unfold Py.round. pose proof (Qfloor_le x) as Hlo.
  pose proof (Qlt_floor x) as Hhi. rewrite inject_Z_plus in Hhi.
  change (inject_Z 1) with 1 in Hhi.
  destruct (Py.Qlt_bool (x - inject_Z (Qfloor x)) (1 # 2)) eqn:E1.
  - apply Qlt_bool_true in E1. lra.
  - apply Qlt_bool_false in E1.
    destruct (Py.Qlt_bool (1 # 2) (x - inject_Z (Qfloor x))) eqn:E2.
    + apply Qlt_bool_true in E2. rewrite inject_Z_plus.
      change (inject_Z 1) with 1. lra.
    + apply Qlt_bool_false in E2. destruct (Z.even (Qfloor x)); [lra|].
      rewrite inject_Z_plus. change (inject_Z 1) with 1. lra.
Qed.

(** A non-negative number rounds to zero exactly when it is at most one
    half (the tie goes to the even zero). *)
Lemma round_zero (x : Q) : 0 <= x -> Py.round x = 0%Z <-> x <= 1 # 2.
Proof.
  intros Hx. split.
  - intros H0. pose proof (round_near x) as Hn. rewrite H0 in Hn.
    change (inject_Z 0) with 0 in Hn. lra.
  - intros Hhalf.
    assert (Hf : Qfloor x = 0%Z).
    { pose proof (Qfloor_resp_le _ _ Hx) as H1.
      pose proof (Qfloor_resp_le _ _ Hhalf) as H2.
      change (Qfloor 0) with 0%Z in H1. change (Qfloor (1 # 2)) with 0%Z in H2.
      lia. }
    unfold Py.round. rewrite Hf. change (inject_Z 0) with 0.
    destruct (Py.Qlt_bool (x - 0) (1 # 2)) eqn:E1; [done|].
    destruct (Py.Qlt_bool (1 # 2) (x - 0)) eqn:E2; [|done].
    apply Qlt_bool_true in E2. lra.
Qed.

(** X19. The hop length of step 2. When the score chromagram has no
    column the division raises [ZeroDivisionError]. Otherwise the hop length
    times the number of columns differs from the number of samples by at
    most half the number of columns, and for a non-negative sample count the
    hop length is zero exactly when there are at most half as many samples
    as columns. *)
Theorem chroma_size_spec (audio_len : Z) (chroma_mei : matrix) :
  let w := shape1 chroma_mei in
  (w = 0%Z -> Main.chroma_size audio_len chroma_mei = Err Py.ZeroDivisionError)
  /\ (w <> 0%Z ->
      exists c, Main.chroma_size audio_len chroma_mei = Ok c
        /\ (2 * Z.abs (c * w - audio_len) <= w)%Z
        /\ ((0 <= audio_len)%Z -> c = 0%Z <-> (2 * audio_len <= w)%Z)).
Proof.
  intros w. unfold Main.chroma_size. fold w. split.
  - intros ->. reflexivity.
  - intros Hw.
    assert (Hpos : (0 < w)%Z) by (unfold w, shape1 in *; lia).
    assert (Hwq : 0 < inject_Z w).
    { change 0 with (inject_Z 0). by rewrite <- Zlt_Qlt. }
    assert (Hne : ~ inject_Z w == 0) by lra.
    rewrite (proj2 (py_div_Ok _ (inject_Z w) _) (conj Hne eq_refl)). simpl.
    set (x := inject_Z audio_len / inject_Z w).
    assert (Hx : x * inject_Z w == inject_Z audio_len) by (unfold x; field; done).
    exists (Py.round x). split; [done|]. pose proof (round_near x) as [Hlo Hhi].
    set (c := Py.round x) in *. split.
    + assert (H1 : (inject_Z c - x) * inject_Z w <= (1 # 2) * inject_Z w)
        by (apply Qmult_le_compat_r; lra).
      assert (H2 : - (1 # 2) * inject_Z w <= (inject_Z c - x) * inject_Z w)
        by (apply Qmult_le_compat_r; lra).
      assert (H3 : inject_Z (2 * (c * w - audio_len)) <= inject_Z w).
      { unfold Z.sub. rewrite inject_Z_mult, inject_Z_plus, inject_Z_mult, inject_Z_opp.
        change (inject_Z 2) with 2. lra. }
      assert (H4 : inject_Z (- w) <= inject_Z (2 * (c * w - audio_len))).
      { unfold Z.sub. rewrite inject_Z_mult, inject_Z_plus, inject_Z_mult, !inject_Z_opp.
        change (inject_Z 2) with 2. lra. }
      rewrite <- Zle_Qle in H3, H4. lia.
    + intros Hlen.
      assert (Hx0 : 0 <= x).
      { apply Qdiv_nonneg; [|done]. by apply (inject_Z_le 0). }
      unfold c. rewrite (round_zero x Hx0). split.
      * intros Hhalf.
        assert (H1 : x * inject_Z w <= (1 # 2) * inject_Z w)
          by (apply Qmult_le_compat_r; lra).
        assert (H3 : inject_Z (2 * audio_len) <= inject_Z w).
        { rewrite inject_Z_mult. change (inject_Z 2) with 2. lra. }
        by rewrite <- Zle_Qle in H3.
      * intros H2. rewrite Zle_Qle, inject_Z_mult in H2.
        change (inject_Z 2) with 2 in H2.
        apply Qle_shift_div_r; [done | lra].
Qed.

(** X20. A score without qualifying elements stops the pipeline at step
    2: the builder returns a matrix without columns, and the hop length
    computed from it raises [ZeroDivisionError] whatever the audio is. *)
Theorem empty_score_fails_at_step_2 (elems : list element) (audio_len : Z) :
  qualifying elems = [] ->
  exists m idx,
    _meico_to_chroma elems = Ok (m, idx)
    /\ Main.chroma_size audio_len m = Err Py.ZeroDivisionError.
Proof.
  intros Hq. exists (replicate 12 []), []. split; [|reflexivity].
  apply meico_to_chroma_Ok. rewrite Hq. by split.
Qed.

Lemma empty_score_fails_at_step_2_witness :
  exists m idx,
    _meico_to_chroma [Examples.bare_rest "x"] = Ok (m, idx)
    /\ Main.chroma_size 44100 m = Err Py.ZeroDivisionError.
Proof.
  apply (empty_score_fails_at_step_2 [Examples.bare_rest "x"] 44100).
  reflexivity.
Defined.
End hop_facts.

(** ** The stages together *)

Section pipeline_facts.
Import Mei Spec.
Local Open Scope Q_scope.

(** X21. Timestamps follow onsets. Take a score with pairwise distinct
    identifiers and a positive shortest duration, a descending warp path,
    a non-negative sample count and positive sample rate and number of
    audio columns. When the builder and step 4 return, an element that does
    not start later than another does not get a later timestamp. *)
Theorem timestamps_follow_onsets (elems : list element) m idx (s : Q)
    (path : list (Z * Z)) (audio_len : Z) (frame_rate : Q) (columns : Z)
    (trim_start : Q) t (e1 e2 : element) (d1 d2 : Q) :
  _meico_to_chroma elems = Ok (m, idx) ->
  NoDup (xml_id <$> qualifying elems) ->
  shortest_duration_tick (qualifying elems) s -> 0 < s ->
  descending path ->
  Main.id_to_time audio_len frame_rate columns trim_start
                  (Main.path_dict path) idx = Ok t ->
  (0 <= audio_len)%Z -> 0 < frame_rate -> (0 < columns)%Z ->
  e1 ∈ qualifying elems -> e2 ∈ qualifying elems ->
  midi_date e1 = Number d1 -> midi_date e2 = Number d2 -> d1 <= d2 ->
  exists t1 t2, Py.get t (xml_id e1) = Some t1
                /\ Py.get t (xml_id e2) = Some t2 /\ t1 <= t2.
Proof.
  intros Hok Hnd Hs Hpos Hdesc Htime Hlen Hrate Hcols He1 He2 Hd1 Hd2 Hle.
  pose proof (index_entry elems m idx s e1 d1 Hok Hnd Hs He1 Hd1) as Hi1.
  pose proof (index_entry elems m idx s e2 d2 Hok Hnd Hs He2 Hd2) as Hi2.
  assert (Hi : (Qfloor (d1 / s) <= Qfloor (d2 / s))%Z)
    by by apply Qfloor_resp_le, Qdiv_le_mono.
  destruct (id_to_time_mapped _ _ _ _ _ _ _ Htime) as (_ & _ & Hmap).
  destruct (Hmap _ _ Hi1) as [a1 Ha1]. destruct (Hmap _ _ Hi2) as [a2 Ha2].
  pose proof (path_dict_order path _ _ a1 a2 Hdesc Ha1 Ha2 Hi) as Ha.
  rewrite !(id_to_time_values _ _ _ _ _ _ _ Htime), Hi1, Hi2, Ha1, Ha2.
  eexists _, _. split_and!; [done | done |]. simpl.
  assert (0 <= inject_Z audio_len) by by apply (inject_Z_le 0).
  assert (0 < inject_Z columns).
  { change 0 with (inject_Z 0). by rewrite <- Zlt_Qlt. }
  assert (Hcl : 0 <= inject_Z audio_len / frame_rate / inject_Z columns).
  { apply Qdiv_nonneg; [|done]. by apply Qdiv_nonneg. }
  apply inject_Z_le in Ha.
  pose proof (Qmult_le_compat_r _ _ _ Ha Hcl). lra.
Qed.

(** X22. The two steps of the aggregator together: every measure found
    for a key of the timestamp map has an entry in the final list, with a
    timestamp that is not later than that of the key; and every entry of
    the final list is the entry of some key of the map. *)
Theorem measure_gets_earliest_timestamp (output_json : Py.dict string Q)
    (mei_tree : xml) mapping printed filtered_mapping :
  get_measure_timestamps output_json mei_tree = Ok (mapping, printed) ->
  filter_measures_by_tstamp mapping = Ok filtered_mapping ->
  (forall key e,
     key ∈ Py.keys output_json ->
     entry_for output_json mei_tree key = Some e ->
     exists o, o ∈ filtered_mapping /\ measure_id o = measure_id e
               /\ timestamp_sec o <= timestamp_sec e)
  /\ (forall o, o ∈ filtered_mapping ->
        exists key, key ∈ Py.keys output_json
                    /\ entry_for output_json mei_tree key = Some o).
Proof.
  unfold get_measure_timestamps. rewrite lookup_measure_loop by done.
  intros [= <- _]. simpl. unfold filter_measures_by_tstamp.
  intros [Hperm _]%(sorted_Ok _ _ tuple_lt_asym).
  set (mapping := omap (entry_for output_json mei_tree) (Py.keys output_json)) in *.
  pose proof (keep_earliest_loop mapping) as (_ & Hval & Hmin). split.
  - intros key e Hkey He.
    assert (Hin : e ∈ mapping) by (apply list_elem_of_omap; by exists key).
    destruct (Hmin e Hin) as (v & Hv & Hle). apply get_Some_elem in Hv.
    exists v. split_and!; [|by apply (Hval _ v)|done].
    rewrite Hperm. apply list_elem_of_fmap. by exists (measure_id e, v).
  - intros o Ho. rewrite Hperm in Ho.
    apply list_elem_of_fmap in Ho as ([k v] & -> & Hin).
    destruct (Hval k v Hin) as [_ Hv].
    apply list_elem_of_omap in Hv as (key & ? & ?). by exists key.
Qed.
End pipeline_facts.

(** ** The further properties on the samples *)

Section more_samples.
Import Mei Spec Examples.
Local Open Scope Q_scope.


(** The attributes of an explicit element are numbers. *)
Ltac well_formed_sample :=
  repeat constructor; try (by eexists); intros _; by eexists.


Lemma two_notes_well_formed : Forall well_formed (qualifying two_notes).
Proof. change (qualifying two_notes) with two_notes. well_formed_sample. Qed.

Lemma two_notes_ids : NoDup (xml_id <$> qualifying two_notes).
Proof. apply (bool_decide_unpack _). vm_compute. exact I. Qed.



Lemma chroma_cells_in_unit_interval_witness :
  exists m idx,
    _meico_to_chroma two_notes = Ok (m, idx)
    /\ Forall (fun row => length row = Z.to_nat (shape1 m)) m
    /\ Forall (Forall (fun x => 0 <= x <= 1)) m.
Proof.
  eexists _, _. split; [vm_compute; reflexivity|].
  eapply (chroma_cells_in_unit_interval two_notes). vm_compute; reflexivity.
Defined.


Lemma rests_give_zero_matrix_witness :
  exists m idx,
    _meico_to_chroma rests = Ok (m, idx)
    /\ Forall (Forall (fun x => x == 0)) m.
Proof.
  eexists _, _. split; [vm_compute; reflexivity|].
  eapply (rests_give_zero_matrix rests); [vm_compute; reflexivity|].
  change (qualifying rests) with rests. intros e He.
  repeat (apply elem_of_cons in He as [->|He]); try done.
  by apply elem_of_nil in He.
Defined.



Lemma index_monotone_in_onset_witness :
  exists m idx,
    _meico_to_chroma two_notes = Ok (m, idx)
    /\ exists i1 i2, Py.get idx (Some "a"%string) = Some i1
                     /\ Py.get idx (Some "b"%string) = Some i2 /\ (i1 <= i2)%Z.
Proof.
  eexists _, _. split; [vm_compute; reflexivity|].
  destruct two_notes_ticks as (_ & Hs & _).
  eapply (index_monotone_in_onset two_notes _ _ 2
            (mk_note "a" 60 0 2) (mk_note "b" 61 2 3) 0 2);
    [vm_compute; reflexivity | exact two_notes_ids | exact Hs | reflexivity
    | left | right; left | reflexivity | reflexivity | lra].
Defined.

Lemma lookup_accounts_for_every_key_witness :
  (length [mk_entry "1" "m1" 1]
   + length [NoNumberOrId "b"; NoMeasureFound "c"]
   = length (Py.keys timestamps))%nat
  /\ forall e, e ∈ [mk_entry "1" "m1" 1] ->
       exists key m,
         Py.get timestamps key = Some (timestamp_sec e)
         /\ m ∈ score :: descendants score
         /\ is_measure m = true /\ encloses key m = true
         /\ xml_n m = Some (measure_number e)
         /\ xml_xmlid m = Some (measure_id e).
Proof.
  apply (lookup_accounts_for_every_key timestamps score). reflexivity.
Defined.

Lemma reduction_idempotent_witness :
  filter_measures_by_tstamp
    [mk_entry "1" "m1" 0; mk_entry "2" "m2" 7; mk_entry "10" "m10" 3]
  = Ok [mk_entry "1" "m1" 0; mk_entry "2" "m2" 7; mk_entry "10" "m10" 3].
Proof. apply (reduction_idempotent entries). reflexivity. Defined.


Lemma reduction_keeps_distinct_measures_witness :
  [mk_entry "1" "m1" 0; mk_entry "2" "m2" 7]
  ≡ₚ [mk_entry "2" "m2" 7; mk_entry "1" "m1" 0].
Proof.
  apply (reduction_keeps_distinct_measures
           [mk_entry "2" "m2" 7; mk_entry "1" "m1" 0]).
  - reflexivity.
  - apply (bool_decide_unpack _). vm_compute. exact I.
Defined.

(** Two entries of one measure with the same timestamp: the first one
    stays. *)
Lemma reduction_first_seen_wins_witness :
  exists out,
    filter_measures_by_tstamp
      [mk_entry "1" "m1" 5; mk_entry "01" "m1" 5] = Ok out
    /\ mk_entry "1" "m1" 5 ∈ out.
Proof.
  eexists. split; [vm_compute; reflexivity|].
  apply (reduction_first_seen_wins [] [mk_entry "01" "m1" 5] _
           (mk_entry "1" "m1" 5)).
  - vm_compute; reflexivity.
  - by intros e ?%elem_of_nil.
  - intros e He _. apply list_elem_of_singleton in He as ->. simpl. lra.
Defined.

Lemma trim_offset_shifts_witness :
  exists t t0,
    Main.id_to_time 100 10 5 500 (Main.path_dict warp_path) indices = Ok t
    /\ Main.id_to_time 100 10 5 0 (Main.path_dict warp_path) indices = Ok t0
    /\ forall id,
         match Py.get t id, Py.get t0 id with
         | Some v, Some v0 => v == v0 + 500 / 1000
         | None, None => True
         | _, _ => False
         end.
Proof.
  eexists. 
  destruct (trim_offset_shifts 100 10 5 500 (Main.path_dict warp_path) indices
              _ eq_refl) as (t0 & Ht0 & Hshift).
  exists t0. split_and!; [reflexivity | exact Ht0 | exact Hshift].
Defined.

Lemma timestamps_at_least_offset_witness :
  exists t,
    Main.id_to_time 100 10 5 500 (Main.path_dict warp_path) indices = Ok t
    /\ forall id v, Py.get t id = Some v -> 0 <= 500 / 1000 <= v.
Proof.
  eexists. split; [vm_compute; reflexivity|].
  apply (timestamps_at_least_offset 100 10 5 500 (Main.path_dict warp_path)
           indices); [vm_compute; reflexivity | lia | reflexivity | lia
                     | discriminate |].
  intros col a Ha. apply get_Some_elem in Ha.
  repeat (apply elem_of_cons in Ha as [Ha|Ha]);
    [injection Ha as -> ->; lia..|by apply elem_of_nil in Ha].
Defined.

Lemma id_to_time_returns_iff_witness :
  (exists t, Main.id_to_time 100 10 5 500 (Main.path_dict warp_path) indices
             = Ok t)
  <-> forall id col, Py.get indices id = Some col -> col ∈ warp_path.*1.
Proof.
  apply (id_to_time_returns_iff 100 10 5 500 warp_path indices);
    discriminate.
Defined.

Lemma chroma_size_spec_witness :
  exists c,
    Main.chroma_size 5 [[0; 0]] = Ok c
    /\ (2 * Z.abs (c * 2 - 5) <= 2)%Z
    /\ ((0 <= 5)%Z -> c = 0%Z <-> (2 * 5 <= 2)%Z).
Proof.
  apply (proj2 (chroma_size_spec 5 [[0; 0]])). discriminate.
Defined.

Lemma timestamps_follow_onsets_witness :
  exists m idx t,
    _meico_to_chroma two_notes = Ok (m, idx)
    /\ Main.id_to_time 100 10 5 500 (Main.path_dict warp_path) idx = Ok t
    /\ exists t1 t2, Py.get t (Some "a"%string) = Some t1
                     /\ Py.get t (Some "b"%string) = Some t2 /\ t1 <= t2.
Proof.
  eexists _, _, _. split; [vm_compute; reflexivity|].
  split; [vm_compute; reflexivity|].
  destruct two_notes_ticks as (_ & Hs & _).
  eapply (timestamps_follow_onsets two_notes _ _ 2 warp_path 100 10 5 500 _
            (mk_note "a" 60 0 2) (mk_note "b" 61 2 3) 0 2);
    [vm_compute; reflexivity | exact two_notes_ids | exact Hs | reflexivity
    | exact warp_path_descending | vm_compute; reflexivity | lia | reflexivity
    | lia | left | right; left | reflexivity | reflexivity | lra].
Defined.

Lemma measure_gets_earliest_timestamp_witness :
  (forall key e,
     key ∈ Py.keys timestamps -> entry_for timestamps score key = Some e ->
     exists o, o ∈ [mk_entry "1" "m1" 1] /\ measure_id o = measure_id e
               /\ timestamp_sec o <= timestamp_sec e)
  /\ (forall o, o ∈ [mk_entry "1" "m1" 1] ->
        exists key, key ∈ Py.keys timestamps
                    /\ entry_for timestamps score key = Some o).
Proof.
  apply (measure_gets_earliest_timestamp timestamps score
           [mk_entry "1" "m1" 1] [NoNumberOrId "b"; NoMeasureFound "c"]);
    reflexivity.
Defined.
End more_samples.
